(** * ElizaClient: session manager and message-correlation engine

    A shallow embedding of the [ElizaClient] class (the socket.io bridge
    client of the repository) as an explicit-state event machine, and the
    properties of its connect, reconfiguration and reply-correlation logic.

    - The client object is the record [Client]; every method is a function
      on it.  Promises, timers and the methods suspended at an [await] live
      in explicit stores inside the record, the way the JavaScript run time
      keeps them.  One counter hands out the identifiers of promises and
      timers; a promise is keyed by the method that created it and its
      identifier.
    - The transport (socket.io) is the environment: it raises the events
      the client registered handlers for, on any socket the client ever
      opened, in any order.  Timers carry no duration: the environment
      decides when one comes due.
    - A method suspended at [await this.connect()] resumes in the turn that
      settles the promise.  [await this.disconnect()] awaits no promise and
      is a plain call.
    - Observers registered with [onMessage], [onStateChange] and [onError]
      are opaque: a call is recorded, a throw is caught by the client, and
      an observer does not call back into the client.
    - What the outside world can observe (transports opened, envelopes
      emitted, transports closed, observers called) is appended to [trace].
    - [Date.now()] and the generated message id are arguments.  Logger calls
      have no effect on the client and are left out; [io(...)] returns a
      socket and does not throw. *)

From Stdlib Require Import ZArith NArith Ascii String DecimalString.
From stdpp Require Import base numbers option list strings gmap fin_maps.

Open Scope string_scope.
Open Scope list_scope.

(** ** Data model (types.ts) *)

Inductive SOCKET_MESSAGE_TYPE := ROOM_JOINING | SEND_MESSAGE.

Inductive ConnectionState := DISCONNECTED | CONNECTING | CONNECTED | ERROR.

#[global] Instance ConnectionState_eq_dec : EqDecision ConnectionState.
Proof. solve_decision. Defined.

(** [Required<ElizaClientConfig>]: after the constructor every field is
    present; an unset identifier is the empty string.  A timeout is a
    Number of milliseconds; the model covers the timeouts that are
    non-negative integers. *)
Record Config := {
  agentId : string;
  userId : string;
  roomId : string;
  worldId : string;
  serverUrl : string;
  connectionTimeout : N;
  responseTimeout : N
}.

(** [Partial<ElizaClientConfig>] / the constructor argument: [None] is a
    key that is absent. *)
Record ElizaClientConfig := {
  opt_agentId : option string;
  opt_userId : option string;
  opt_roomId : option string;
  opt_worldId : option string;
  opt_serverUrl : option string;
  opt_connectionTimeout : option N;
  opt_responseTimeout : option N
}.

(** The [payload] of the synthetic error result built by
    [sendMessageAndGetResponse]: [{ message: { error }, requestId }]. *)
Record ErrorPayload := {
  payload_error : string;
  payload_requestId : string
}.

(** [AgentResponseMessage]: the declared optional fields, and the fields
    the client reads or writes through the index signature. *)
Record AgentResponseMessage := {
  msg_id : option string;
  msg_text : option string;
  msg_message : option string;
  msg_content : option string;
  msg_error : option string;
  msg_senderId : option string;
  msg_status : option string;
  msg_payload : option ErrorPayload
}.

Record SocketMessagePayload := {
  sp_roomId : string;
  sp_agentIds : option (list string);
  sp_senderId : option string;
  sp_senderName : option string;
  sp_message : option string;
  sp_agentId : option string;
  sp_worldId : option string;
  sp_messageId : option string;
  sp_source : option string
}.

Record SocketMessage := {
  sm_type : SOCKET_MESSAGE_TYPE;
  sm_payload : SocketMessagePayload
}.

(** ** Run-time objects *)

(** Which async method created a promise. *)
Inductive PromiseKind :=
  PConnect | PSendMessage | PWait | PSwitch | PSetConfig | PSendAndGet.

#[global] Instance PromiseKind_eq_dec : EqDecision PromiseKind.
Proof. solve_decision. Defined.

Definition PromiseKind_code (k : PromiseKind) : nat :=
  match k with
  | PConnect => 0 | PSendMessage => 1 | PWait => 2
  | PSwitch => 3 | PSetConfig => 4 | PSendAndGet => 5
  end.

Definition PromiseKind_decode (n : nat) : option PromiseKind :=
  match n with
  | 0 => Some PConnect | 1 => Some PSendMessage | 2 => Some PWait
  | 3 => Some PSwitch | 4 => Some PSetConfig | 5 => Some PSendAndGet
  | _ => None
  end.

#[global] Instance PromiseKind_countable : Countable PromiseKind.
Proof.
  refine (inj_countable PromiseKind_code PromiseKind_decode _).
  by intros [].
Defined.

Inductive Value :=
| VTrue
| VVoid
| VMessage (m : AgentResponseMessage).

Inductive Settled :=
| Resolved (v : Value)
| Rejected (e : string).

(** The transport object returned by [io(...)], with what the handlers
    registered on it close over: the [resolve]/[reject] pair of the
    connect promise and [connectionTimeoutId]. *)
Record Socket := {
  sock_connected : bool;
  sock_promise : nat;
  sock_timer : nat
}.

(** A [resolverWrapper] closure.  It is identified by the promise it
    settles (one closure is created per promise); [res_timer] is the timer
    it clears. *)
Inductive ResolverKind := FromWait | FromSendAndGet.

#[global] Instance ResolverKind_eq_dec : EqDecision ResolverKind.
Proof. solve_decision. Defined.

Record Resolver := {
  res_kind : ResolverKind;
  res_promise : nat;
  res_timer : nat
}.

#[global] Instance Resolver_eq_dec : EqDecision Resolver.
Proof. solve_decision. Defined.

Definition resolver_key (r : Resolver) : PromiseKind * nat :=
  (match res_kind r with FromWait => PWait | FromSendAndGet => PSendAndGet end,
   res_promise r).

(** The callbacks handed to [setTimeout]. *)
Inductive TimerAction :=
| ConnectionTimeout (c : nat)
| WaitTimeout (p : nat) (waitTimeout : N)
| ResponseTimeout (p : nat) (messageId : string)
| GraceDelay (newAgentId newRoomId : string) (o : nat).

(** The rest of an async method suspended at [await this.connect()]. *)
Inductive Kont :=
| KSendMessage (messageText messageId : string) (o : nat)
| KSendAndGet (messageText messageId : string) (o : nat)
| KSwitch (o : nat)
| KSetConfig (o : nat).

(** Observable effects. [FxConnectCall] marks an entry into [connect()]. *)
Inductive Effect :=
| FxConnectCall
| FxOpen (sid : nat) (url agent user : string) (timeout : N)
| FxEmit (sid : nat) (m : SocketMessage)
| FxClose (sid : nat)
| FxMessage (listener : nat) (data : AgentResponseMessage)
| FxState (listener : nat) (st : ConnectionState)
| FxError (listener : nat) (err : string).

#[global] Instance Effect_connect_call_dec (e : Effect) :
  Decision (e = FxConnectCall).
Proof. destruct e; (by left) || (by right). Defined.

Record Client := {
  socket : option nat;
  sockets : list Socket;
  config : Config;
  connectionState : ConnectionState;
  connectionStartTime : Z;
  connectionTime : Z;
  roomJoined : bool;
  messageListeners : list nat;
  stateChangeListeners : list nat;
  errorListeners : list nat;
  messageQueue : list AgentResponseMessage;
  resolvers : list Resolver;
  nextId : nat;
  promises : gmap (PromiseKind * nat) Settled;
  timers : gmap nat TimerAction;
  awaiting : list (nat * Kont);
  trace : list Effect
}.

Definition set_socket (v : option nat) (s : Client) : Client :=
  {| socket := v; sockets := sockets s; config := config s;
     connectionState := connectionState s;
     connectionStartTime := connectionStartTime s;
     connectionTime := connectionTime s; roomJoined := roomJoined s;
     messageListeners := messageListeners s;
     stateChangeListeners := stateChangeListeners s;
     errorListeners := errorListeners s; messageQueue := messageQueue s;
     resolvers := resolvers s; nextId := nextId s; promises := promises s;
     timers := timers s; awaiting := awaiting s; trace := trace s |}.

Definition set_sockets (v : list Socket) (s : Client) : Client :=
  {| socket := socket s; sockets := v; config := config s;
     connectionState := connectionState s;
     connectionStartTime := connectionStartTime s;
     connectionTime := connectionTime s; roomJoined := roomJoined s;
     messageListeners := messageListeners s;
     stateChangeListeners := stateChangeListeners s;
     errorListeners := errorListeners s; messageQueue := messageQueue s;
     resolvers := resolvers s; nextId := nextId s; promises := promises s;
     timers := timers s; awaiting := awaiting s; trace := trace s |}.

Definition set_config (v : Config) (s : Client) : Client :=
  {| socket := socket s; sockets := sockets s; config := v;
     connectionState := connectionState s;
     connectionStartTime := connectionStartTime s;
     connectionTime := connectionTime s; roomJoined := roomJoined s;
     messageListeners := messageListeners s;
     stateChangeListeners := stateChangeListeners s;
     errorListeners := errorListeners s; messageQueue := messageQueue s;
     resolvers := resolvers s; nextId := nextId s; promises := promises s;
     timers := timers s; awaiting := awaiting s; trace := trace s |}.

Definition set_connectionState (v : ConnectionState) (s : Client) : Client :=
  {| socket := socket s; sockets := sockets s; config := config s;
     connectionState := v; connectionStartTime := connectionStartTime s;
     connectionTime := connectionTime s; roomJoined := roomJoined s;
     messageListeners := messageListeners s;
     stateChangeListeners := stateChangeListeners s;
     errorListeners := errorListeners s; messageQueue := messageQueue s;
     resolvers := resolvers s; nextId := nextId s; promises := promises s;
     timers := timers s; awaiting := awaiting s; trace := trace s |}.

Definition set_connectionStartTime (v : Z) (s : Client) : Client :=
  {| socket := socket s; sockets := sockets s; config := config s;
     connectionState := connectionState s; connectionStartTime := v;
     connectionTime := connectionTime s; roomJoined := roomJoined s;
     messageListeners := messageListeners s;
     stateChangeListeners := stateChangeListeners s;
     errorListeners := errorListeners s; messageQueue := messageQueue s;
     resolvers := resolvers s; nextId := nextId s; promises := promises s;
     timers := timers s; awaiting := awaiting s; trace := trace s |}.

Definition set_connectionTime (v : Z) (s : Client) : Client :=
  {| socket := socket s; sockets := sockets s; config := config s;
     connectionState := connectionState s;
     connectionStartTime := connectionStartTime s; connectionTime := v;
     roomJoined := roomJoined s; messageListeners := messageListeners s;
     stateChangeListeners := stateChangeListeners s;
     errorListeners := errorListeners s; messageQueue := messageQueue s;
     resolvers := resolvers s; nextId := nextId s; promises := promises s;
     timers := timers s; awaiting := awaiting s; trace := trace s |}.

Definition set_roomJoined (v : bool) (s : Client) : Client :=
  {| socket := socket s; sockets := sockets s; config := config s;
     connectionState := connectionState s;
     connectionStartTime := connectionStartTime s;
     connectionTime := connectionTime s; roomJoined := v;
     messageListeners := messageListeners s;
     stateChangeListeners := stateChangeListeners s;
     errorListeners := errorListeners s; messageQueue := messageQueue s;
     resolvers := resolvers s; nextId := nextId s; promises := promises s;
     timers := timers s; awaiting := awaiting s; trace := trace s |}.

Definition set_messageListeners (v : list nat) (s : Client) : Client :=
  {| socket := socket s; sockets := sockets s; config := config s;
     connectionState := connectionState s;
     connectionStartTime := connectionStartTime s;
     connectionTime := connectionTime s; roomJoined := roomJoined s;
     messageListeners := v; stateChangeListeners := stateChangeListeners s;
     errorListeners := errorListeners s; messageQueue := messageQueue s;
     resolvers := resolvers s; nextId := nextId s; promises := promises s;
     timers := timers s; awaiting := awaiting s; trace := trace s |}.

Definition set_stateChangeListeners (v : list nat) (s : Client) : Client :=
  {| socket := socket s; sockets := sockets s; config := config s;
     connectionState := connectionState s;
     connectionStartTime := connectionStartTime s;
     connectionTime := connectionTime s; roomJoined := roomJoined s;
     messageListeners := messageListeners s; stateChangeListeners := v;
     errorListeners := errorListeners s; messageQueue := messageQueue s;
     resolvers := resolvers s; nextId := nextId s; promises := promises s;
     timers := timers s; awaiting := awaiting s; trace := trace s |}.

Definition set_errorListeners (v : list nat) (s : Client) : Client :=
  {| socket := socket s; sockets := sockets s; config := config s;
     connectionState := connectionState s;
     connectionStartTime := connectionStartTime s;
     connectionTime := connectionTime s; roomJoined := roomJoined s;
     messageListeners := messageListeners s;
     stateChangeListeners := stateChangeListeners s; errorListeners := v;
     messageQueue := messageQueue s; resolvers := resolvers s;
     nextId := nextId s; promises := promises s; timers := timers s;
     awaiting := awaiting s; trace := trace s |}.

Definition set_messageQueue (v : list AgentResponseMessage) (s : Client) : Client :=
  {| socket := socket s; sockets := sockets s; config := config s;
     connectionState := connectionState s;
     connectionStartTime := connectionStartTime s;
     connectionTime := connectionTime s; roomJoined := roomJoined s;
     messageListeners := messageListeners s;
     stateChangeListeners := stateChangeListeners s;
     errorListeners := errorListeners s; messageQueue := v;
     resolvers := resolvers s; nextId := nextId s; promises := promises s;
     timers := timers s; awaiting := awaiting s; trace := trace s |}.

Definition set_resolvers (v : list Resolver) (s : Client) : Client :=
  {| socket := socket s; sockets := sockets s; config := config s;
     connectionState := connectionState s;
     connectionStartTime := connectionStartTime s;
     connectionTime := connectionTime s; roomJoined := roomJoined s;
     messageListeners := messageListeners s;
     stateChangeListeners := stateChangeListeners s;
     errorListeners := errorListeners s; messageQueue := messageQueue s;
     resolvers := v; nextId := nextId s; promises := promises s;
     timers := timers s; awaiting := awaiting s; trace := trace s |}.

Definition set_nextId (v : nat) (s : Client) : Client :=
  {| socket := socket s; sockets := sockets s; config := config s;
     connectionState := connectionState s;
     connectionStartTime := connectionStartTime s;
     connectionTime := connectionTime s; roomJoined := roomJoined s;
     messageListeners := messageListeners s;
     stateChangeListeners := stateChangeListeners s;
     errorListeners := errorListeners s; messageQueue := messageQueue s;
     resolvers := resolvers s; nextId := v; promises := promises s;
     timers := timers s; awaiting := awaiting s; trace := trace s |}.

Definition set_promises (v : gmap (PromiseKind * nat) Settled) (s : Client) : Client :=
  {| socket := socket s; sockets := sockets s; config := config s;
     connectionState := connectionState s;
     connectionStartTime := connectionStartTime s;
     connectionTime := connectionTime s; roomJoined := roomJoined s;
     messageListeners := messageListeners s;
     stateChangeListeners := stateChangeListeners s;
     errorListeners := errorListeners s; messageQueue := messageQueue s;
     resolvers := resolvers s; nextId := nextId s; promises := v;
     timers := timers s; awaiting := awaiting s; trace := trace s |}.

Definition set_timers (v : gmap nat TimerAction) (s : Client) : Client :=
  {| socket := socket s; sockets := sockets s; config := config s;
     connectionState := connectionState s;
     connectionStartTime := connectionStartTime s;
     connectionTime := connectionTime s; roomJoined := roomJoined s;
     messageListeners := messageListeners s;
     stateChangeListeners := stateChangeListeners s;
     errorListeners := errorListeners s; messageQueue := messageQueue s;
     resolvers := resolvers s; nextId := nextId s; promises := promises s;
     timers := v; awaiting := awaiting s; trace := trace s |}.

Definition set_awaiting (v : list (nat * Kont)) (s : Client) : Client :=
  {| socket := socket s; sockets := sockets s; config := config s;
     connectionState := connectionState s;
     connectionStartTime := connectionStartTime s;
     connectionTime := connectionTime s; roomJoined := roomJoined s;
     messageListeners := messageListeners s;
     stateChangeListeners := stateChangeListeners s;
     errorListeners := errorListeners s; messageQueue := messageQueue s;
     resolvers := resolvers s; nextId := nextId s; promises := promises s;
     timers := timers s; awaiting := v; trace := trace s |}.

Definition set_trace (v : list Effect) (s : Client) : Client :=
  {| socket := socket s; sockets := sockets s; config := config s;
     connectionState := connectionState s;
     connectionStartTime := connectionStartTime s;
     connectionTime := connectionTime s; roomJoined := roomJoined s;
     messageListeners := messageListeners s;
     stateChangeListeners := stateChangeListeners s;
     errorListeners := errorListeners s; messageQueue := messageQueue s;
     resolvers := resolvers s; nextId := nextId s; promises := promises s;
     timers := timers s; awaiting := awaiting s; trace := v |}.

(** ** JavaScript primitives used by the client *)

(** Strings are sequences of code units; the model covers code units up to
    255, where [String.prototype.trim] strips TAB, LF, VT, FF, CR, SPACE and
    NBSP. *)
Definition is_whitespace (c : ascii) : bool :=
  let n := nat_of_ascii c in
  ((n =? 9) || (n =? 10) || (n =? 11) || (n =? 12) || (n =? 13) || (n =? 32)
   || (n =? 160))%nat.

Fixpoint trim_start (t : string) : string :=
  match t with
  | EmptyString => EmptyString
  | String c t' => if is_whitespace c then trim_start t' else t
  end.

Fixpoint trim_end (t : string) : string :=
  match t with
  | EmptyString => EmptyString
  | String c t' =>
      match trim_end t' with
      | EmptyString => if is_whitespace c then EmptyString else String c EmptyString
      | u => String c u
      end
  end.

Definition trim (t : string) : string := trim_end (trim_start t).

(** [!!s] for a string. *)
Definition truthy (t : string) : bool := bool_decide (t ≠ "").

(** The decimal numeral of a natural number. *)
Definition digits (n : N) : string := NilZero.string_of_uint (N.to_uint n).

(** The Number value for a natural number: the integer itself below 2^53,
    and from there on the nearest integer with 53 significant bits, ties
    to the even one. *)
Definition to_number (n : N) : N :=
  if (n <? 2 ^ 53)%N then n
  else
    let ulp := (2 ^ (N.log2 n - 52))%N in
    let q := (n / ulp)%N in
    let r := (n mod ulp)%N in
    let q :=
      if (2 * r <? ulp)%N then q
      else if (ulp <? 2 * r)%N then (q + 1)%N
      else if N.even q then q else (q + 1)%N in
    (q * ulp)%N.

(** Number::toString picks the least number [k] of significant digits
    [s] for which [s * 10^z] has Number value [x], and among those the [s]
    closest to [x], the even one on a tie.  With [k] digits only the two
    multiples of [10^z] around [x] can qualify. *)
Fixpoint shortest (fuel : nat) (k len x : N) : N * N :=
  match fuel with
  | O => (x, 0%N)
  | S fuel =>
      let z := (len - k)%N in
      let p := (10 ^ z)%N in
      let s0 := (x / p)%N in
      let s1 := (s0 + 1)%N in
      let ok0 := (to_number (s0 * p) =? x)%N in
      let ok1 := (to_number (s1 * p) =? x)%N in
      if ok0 && ok1 then
        let d0 := (x - s0 * p)%N in
        let d1 := (s1 * p - x)%N in
        if (d0 <? d1)%N then (s0, z)
        else if (d1 <? d0)%N then (s1, z)
        else if N.even s0 then (s0, z) else (s1, z)
      else if ok0 then (s0, z)
      else if ok1 then (s1, z)
      else shortest fuel (k + 1)%N len x
  end.

Fixpoint strip_zeros (fuel : nat) (s z : N) : N * N :=
  match fuel with
  | O => (s, z)
  | S fuel =>
      if (0 <? s)%N && (s mod 10 =? 0)%N
      then strip_zeros fuel (s / 10)%N (z + 1)%N
      else (s, z)
  end.

Fixpoint zeros (n : nat) : string :=
  match n with O => "" | S n => String "0" (zeros n) end.

(** [`${n}`] for a Number that is a non-negative integer (the timeouts of
    the model): Number::toString.  An integer below 2^53 prints as its
    numeral.  A larger one prints its shortest digits, followed by zeros
    while it has at most 21 digits ([2^64] prints as
    [18446744073709552000]) and in exponent form from [10^21] on ([1e+21],
    [1.5e+21]); what exceeds the largest Number prints as [Infinity]. *)
Definition dec (n : N) : string :=
  let x := to_number n in
  if (x <? 2 ^ 53)%N then digits x
  else if (2 ^ 1024 <=? x)%N then "Infinity"
  else
    let len := String.length (digits x) in
    let '(s, z) := shortest len 1%N (N.of_nat len) x in
    let '(s, z) := strip_zeros len s z in
    let ds := digits s in
    let e := (N.of_nat (String.length ds) + z)%N in
    if (e <=? 21)%N then ds ++ zeros (N.to_nat z)
    else
      match ds with
      | EmptyString => ""
      | String d EmptyString => String d ("e+" ++ digits (e - 1))
      | String d rest => String d ("." ++ rest ++ "e+" ++ digits (e - 1))
      end.

(** [a || b] on an optional string / number. *)
Definition or_string (a : option string) (b : string) : string :=
  match a with Some t => if truthy t then t else b | None => b end.

Definition or_number (a : option N) (b : N) : N :=
  match a with Some n => if (n =? 0)%N then b else n | None => b end.

(** ** Bookkeeping *)

Definition log (e : Effect) (s : Client) : Client :=
  set_trace (trace s ++ [e]) s.

Definition log_all (es : list Effect) (s : Client) : Client :=
  set_trace (trace s ++ es) s.

Definition new_id (s : Client) : nat * Client :=
  (nextId s, set_nextId (S (nextId s)) s).

(** [resolve(v)] / [reject(e)]: a promise settles once; later calls on a
    settled promise do nothing. *)
Definition settle (k : PromiseKind * nat) (r : Settled) (s : Client) : Client :=
  match promises s !! k with
  | None => set_promises (<[k := r]> (promises s)) s
  | Some _ => s
  end.

Definition setTimeout (t : nat) (a : TimerAction) (s : Client) : Client :=
  set_timers (<[t := a]> (timers s)) s.

Definition clearTimeout (t : nat) (s : Client) : Client :=
  set_timers (delete t (timers s)) s.

(** [this.socket?.connected] *)
Definition socket_connected (s : Client) : bool :=
  match socket s with
  | Some sid =>
      match sockets s !! sid with
      | Some sk => sock_connected sk
      | None => false
      end
  | None => false
  end.

Definition set_sock_connected (b : bool) (sk : Socket) : Socket :=
  {| sock_connected := b; sock_promise := sock_promise sk;
     sock_timer := sock_timer sk |}.

(** [this.socket.emit('message', m)] *)
Definition emit (m : SocketMessage) (s : Client) : Client :=
  match socket s with
  | Some sid => log (FxEmit sid m) s
  | None => s
  end.

(** ** The class *)

(** [constructor(config?)] *)
Definition new_client (cfg : option ElizaClientConfig) : Client :=
  {| socket := None; sockets := [];
     config :=
       {| agentId := or_string (cfg ≫= opt_agentId) "";
          userId := or_string (cfg ≫= opt_userId) "";
          roomId := or_string (cfg ≫= opt_roomId) "";
          worldId := or_string (cfg ≫= opt_worldId) "";
          serverUrl := or_string (cfg ≫= opt_serverUrl) "";
          connectionTimeout := or_number (cfg ≫= opt_connectionTimeout) 120000;
          responseTimeout := or_number (cfg ≫= opt_responseTimeout) 90000 |};
     connectionState := DISCONNECTED;
     connectionStartTime := 0; connectionTime := 0;
     roomJoined := false;
     messageListeners := []; stateChangeListeners := []; errorListeners := [];
     messageQueue := []; resolvers := [];
     nextId := 0; promises := ∅; timers := ∅; awaiting := [];
     trace := [] |}.

Definition onMessage (l : nat) (s : Client) : Client :=
  set_messageListeners (messageListeners s ++ [l]) s.

Definition onStateChange (l : nat) (s : Client) : Client :=
  set_stateChangeListeners (stateChangeListeners s ++ [l]) s.

Definition onError (l : nat) (s : Client) : Client :=
  set_errorListeners (errorListeners s ++ [l]) s.

Definition updateState (st : ConnectionState) (s : Client) : Client :=
  if decide (connectionState s = st) then s
  else
    let s := set_connectionState st s in
    log_all ((λ l, FxState l st) <$> stateChangeListeners s) s.

Definition handleError (err : string) (s : Client) : Client :=
  let s := updateState ERROR s in
  log_all ((λ l, FxError l err) <$> errorListeners s) s.

Definition join_message (cfg : Config) : SocketMessage :=
  {| sm_type := ROOM_JOINING;
     sm_payload :=
       {| sp_roomId := roomId cfg; sp_agentIds := Some [agentId cfg];
          sp_senderId := None; sp_senderName := None; sp_message := None;
          sp_agentId := None; sp_worldId := None; sp_messageId := None;
          sp_source := None |} |}.

Definition joinRoom (s : Client) : Client :=
  if negb (socket_connected s) then s
  else if roomJoined s then s
  else if negb (truthy (roomId (config s))) || negb (truthy (agentId (config s)))
  then s
  else set_roomJoined true (emit (join_message (config s)) s).

Definition send_message (cfg : Config) (messageText messageId : string)
  : SocketMessage :=
  {| sm_type := SEND_MESSAGE;
     sm_payload :=
       {| sp_roomId := roomId cfg; sp_agentIds := None;
          sp_senderId := Some (userId cfg); sp_senderName := Some "mcp-user";
          sp_message := Some messageText; sp_agentId := Some (agentId cfg);
          sp_worldId := Some (worldId cfg); sp_messageId := Some messageId;
          sp_source := Some "mcp_client_chat" |} |}.

(** The synthetic result of [sendMessageAndGetResponse]:
    [{ payload: { message: { error }, requestId }, status: 'error', error }]. *)
Definition error_result (errorMsg requestId : string) : AgentResponseMessage :=
  {| msg_id := None; msg_text := None; msg_message := None;
     msg_content := None; msg_error := Some errorMsg; msg_senderId := None;
     msg_status := Some "error";
     msg_payload :=
       Some {| payload_error := errorMsg; payload_requestId := requestId |} |}.

(** *** Inbound correlation *)

(** [data.text && data.text.trim() !== '' && data.senderId === agentId] *)
Definition is_valid_reply (s : Client) (data : AgentResponseMessage) : bool :=
  match msg_text data with
  | Some t =>
      truthy t && bool_decide (trim t ≠ "")
      && bool_decide (msg_senderId data = Some (agentId (config s)))
  | None => false
  end.

(** A call of a [resolverWrapper].  Both closures clear their timer and
    resolve their promise: the one of [waitForNextMessage] tests [timer],
    which was assigned in the same synchronous block that registered the
    closure; the one of [sendMessageAndGetResponse] tests [response], an
    object. *)
Definition call_resolver (r : Resolver) (m : AgentResponseMessage)
    (s : Client) : Client :=
  settle (resolver_key r) (Resolved (VMessage m)) (clearTimeout (res_timer r) s).

(** The [while] loop of [notifyMessageListeners]; [rs] is [this.resolvers]. *)
Fixpoint drain (rs : list Resolver) (s : Client) : Client :=
  match rs with
  | [] => s
  | r :: rs' =>
      match messageQueue s with
      | [] => s
      | m :: q' =>
          drain rs' (call_resolver r m (set_messageQueue q' (set_resolvers rs' s)))
      end
  end.

Definition notifyMessageListeners (data : AgentResponseMessage) (s : Client)
  : Client :=
  let s :=
    if is_valid_reply s data then
      let s := set_messageQueue (messageQueue s ++ [data]) s in
      drain (resolvers s) s
    else s in
  log_all ((λ l, FxMessage l data) <$> messageListeners s) s.

Definition wait_timeout_message (agent : string) (waitTimeout : N) : string :=
  "Timeout waiting for a VALID TEXTUAL response from agent " ++ agent
  ++ " after " ++ dec waitTimeout ++ "ms".

Definition waitForNextMessage (timeout : option N) (s : Client) : Client * nat :=
  let waitTimeout := or_number timeout (responseTimeout (config s)) in
  let '(p, s) := new_id s in
  match messageQueue s with
  | message :: q =>
      (settle (PWait, p) (Resolved (VMessage message)) (set_messageQueue q s), p)
  | [] =>
      let '(t, s) := new_id s in
      let s :=
        set_resolvers
          (resolvers s ++ [{| res_kind := FromWait; res_promise := p;
                              res_timer := t |}]) s in
      (setTimeout t (WaitTimeout p waitTimeout) s, p)
  end.

Definition is_resolver (k : ResolverKind) (p : nat) (r : Resolver) : bool :=
  bool_decide (res_kind r = k) && bool_decide (res_promise r = p).

(** [splice(indexOf(r), 1)] when [indexOf(r) > -1]. *)
Fixpoint remove_first (f : Resolver → bool) (rs : list Resolver)
  : list Resolver :=
  match rs with
  | [] => []
  | r :: rs' => if f r then rs' else r :: remove_first f rs'
  end.

(** The timer callback of [waitForNextMessage]. *)
Definition wait_timeout_fires (p : nat) (waitTimeout : N) (s : Client) : Client :=
  if existsb (is_resolver FromWait p) (resolvers s) then
    let s := set_resolvers (remove_first (is_resolver FromWait p) (resolvers s)) s in
    settle (PWait, p)
      (Rejected (wait_timeout_message (agentId (config s)) waitTimeout)) s
  else s.

Definition response_timeout_message (responseTimeout : N) (messageId : string)
  : string :=
  "Response timeout after " ++ dec responseTimeout ++ "ms for message ID "
  ++ messageId.

(** The timer callback of [sendMessageAndGetResponse]. *)
Definition response_timeout_fires (p : nat) (messageId : string) (s : Client)
  : Client :=
  let errorMsg :=
    response_timeout_message (responseTimeout (config s)) messageId in
  let s :=
    set_resolvers
      (filter (λ r, is_resolver FromSendAndGet p r = false) (resolvers s)) s in
  settle (PSendAndGet, p) (Resolved (VMessage (error_result errorMsg messageId))) s.

(** *** Session lifecycle *)

Definition err_ids_unset : string :=
  "Agent ID and Room ID must be set before connecting".

Definition err_ids_differ : string :=
  "Agent ID and Room ID must be identical for connection.".

Definition err_reconnect_failed : string :=
  "Failed to reconnect to ElizaOS server after multiple attempts".

Definition connection_timeout_message (connectionTimeout : N) : string :=
  "Connection timeout after " ++ dec connectionTimeout ++ "ms".

(** [connect()].  [now] is [Date.now()].  The result is the promise the
    call returns; on the last path it is settled later, by the handlers
    registered on the new socket or by the connection timer. *)
Definition connect (now : Z) (s : Client) : Client * nat :=
  let s := log FxConnectCall s in
  let '(c, s) := new_id s in
  if socket_connected s then (settle (PConnect, c) (Resolved VTrue) s, c)
  else if negb (truthy (agentId (config s))) || negb (truthy (roomId (config s)))
  then (settle (PConnect, c) (Rejected err_ids_unset) s, c)
  else if bool_decide (agentId (config s) ≠ roomId (config s))
  then (settle (PConnect, c) (Rejected err_ids_differ) s, c)
  else
    let s := set_connectionStartTime now s in
    let s := updateState CONNECTING s in
    let sid := length (sockets s) in
    let '(t, s) := new_id s in
    let s :=
      set_sockets
        (sockets s ++ [{| sock_connected := false; sock_promise := c;
                          sock_timer := t |}]) s in
    let s := set_socket (Some sid) s in
    let s :=
      log (FxOpen sid (serverUrl (config s)) (agentId (config s))
             (userId (config s)) (connectionTimeout (config s))) s in
    (setTimeout t (ConnectionTimeout c) s, c).

(** *** Outbound dispatch *)

(** [sendMessage] from its [if (!this.roomJoined)] on. *)
Definition sendMessage_rest (messageText messageId : string) (o : nat)
    (s : Client) : Client :=
  let send s :=
    match socket s with
    | Some _ =>
        settle (PSendMessage, o) (Resolved VVoid)
          (emit (send_message (config s) messageText messageId) s)
    | None => settle (PSendMessage, o) (Rejected "Socket is not initialized") s
    end in
  if negb (roomJoined s) then
    if bool_decide (connectionState s ≠ CONNECTED) then
      settle (PSendMessage, o)
        (Rejected "Cannot send message, connection not established.") s
    else send (joinRoom s)
  else send s.

(** [sendMessageAndGetResponse] from its [if (!this.roomJoined)] on. *)
Definition sendAndGet_rest (messageText messageId : string) (o : nat)
    (s : Client) : Client :=
  let exchange s :=
    let '(t, s) := new_id s in
    let s := setTimeout t (ResponseTimeout o messageId) s in
    let s :=
      set_resolvers
        (resolvers s ++ [{| res_kind := FromSendAndGet; res_promise := o;
                            res_timer := t |}]) s in
    match socket s with
    | Some _ => emit (send_message (config s) messageText messageId) s
    | None =>
        let s := clearTimeout t s in
        let s :=
          set_resolvers
            (filter (λ r, is_resolver FromSendAndGet o r = false) (resolvers s))
            s in
        settle (PSendAndGet, o)
          (Resolved (VMessage
             (error_result "Socket is not initialized, cannot send message."
                messageId))) s
    end in
  if negb (roomJoined s) then
    if bool_decide (connectionState s ≠ CONNECTED) then
      settle (PSendAndGet, o)
        (Resolved (VMessage
           (error_result
              "Cannot send message, connection not established and room not joined."
              ""))) s
    else exchange (joinRoom s)
  else exchange s.

(** [sendMessageAndGetResponse] once its [await this.connect()] returned. *)
Definition sendAndGet_after_connect (messageText messageId : string) (o : nat)
    (s : Client) : Client :=
  if negb (socket_connected s) then
    settle (PSendAndGet, o)
      (Resolved (VMessage
         (error_result "Failed to connect. Cannot send message." ""))) s
  else sendAndGet_rest messageText messageId o s.

(** *** Suspended methods *)

(** What a method suspended at [await this.connect()] does once that
    promise has settled with [r]. *)
Definition resume (k : Kont) (r : Settled) (s : Client) : Client :=
  match k, r with
  | KSendMessage _ _ o, Rejected e => settle (PSendMessage, o) (Rejected e) s
  | KSendMessage messageText messageId o, Resolved _ =>
      sendMessage_rest messageText messageId o s
  | KSendAndGet _ _ o, Rejected e => settle (PSendAndGet, o) (Rejected e) s
  | KSendAndGet messageText messageId o, Resolved _ =>
      sendAndGet_after_connect messageText messageId o s
  | KSwitch o, Rejected e => settle (PSwitch, o) (Rejected e) s
  | KSwitch o, Resolved _ => settle (PSwitch, o) (Resolved VVoid) s
  | KSetConfig o, _ => settle (PSetConfig, o) (Resolved VVoid) s
  end.

(** [await p] for the promise [c] of a [connect()] call. *)
Definition await_connect (c : nat) (k : Kont) (s : Client) : Client :=
  match promises s !! (PConnect, c) with
  | Some r => resume k r s
  | None => set_awaiting (awaiting s ++ [(c, k)]) s
  end.

(** [resolve]/[reject] of a connect promise, followed by the methods that
    were awaiting it. *)
Definition settle_connect (c : nat) (r : Settled) (s : Client) : Client :=
  match promises s !! (PConnect, c) with
  | Some _ => s
  | None =>
      let ks := filter (λ ck, ck.1 = c) (awaiting s) in
      let s := set_promises (<[(PConnect, c) := r]> (promises s)) s in
      let s := set_awaiting (filter (λ ck, ck.1 ≠ c) (awaiting s)) s in
      foldl (λ s ck, resume ck.2 r s) s ks
  end.

Definition sendMessage (messageText messageId : string) (now : Z) (s : Client)
  : Client * nat :=
  let '(o, s) := new_id s in
  if negb (socket_connected s) then
    let '(s, c) := connect now s in
    (await_connect c (KSendMessage messageText messageId o) s, o)
  else (sendMessage_rest messageText messageId o s, o).

Definition sendMessageAndGetResponse (messageText messageId : string) (now : Z)
    (s : Client) : Client * nat :=
  let '(o, s) := new_id s in
  if negb (socket_connected s) then
    let '(s, c) := connect now s in
    (await_connect c (KSendAndGet messageText messageId o) s, o)
  else (sendAndGet_rest messageText messageId o s, o).

(** *** Reconfiguration *)

Definition set_target (newAgentId newRoomId : string) (cfg : Config) : Config :=
  {| agentId := newAgentId; userId := userId cfg; roomId := newRoomId;
     worldId := worldId cfg; serverUrl := serverUrl cfg;
     connectionTimeout := connectionTimeout cfg;
     responseTimeout := responseTimeout cfg |}.

(** Lines 512-516 of [switchAgent]. *)
Definition switchAgent_reset (newAgentId newRoomId : string) (s : Client)
  : Client :=
  let s := set_config (set_target newAgentId newRoomId (config s)) s in
  let s := set_roomJoined false s in
  let s := set_messageQueue [] s in
  set_resolvers [] s.

(** The [try { await this.connect() } catch { throw }] of [switchAgent]. *)
Definition switchAgent_connect (o : nat) (now : Z) (s : Client) : Client :=
  let '(s, c) := connect now s in
  await_connect c (KSwitch o) s.

Definition switchAgent_rest (newAgentId newRoomId : string) (o : nat) (now : Z)
    (s : Client) : Client :=
  switchAgent_connect o now (switchAgent_reset newAgentId newRoomId s).

Definition err_switch_differ : string :=
  "Switching agent failed: newAgentId and newRoomId must be identical.".

(** [{ ...config, ...partial }] *)
Definition merge_config (cfg : Config) (p : ElizaClientConfig) : Config :=
  {| agentId := default (agentId cfg) (opt_agentId p);
     userId := default (userId cfg) (opt_userId p);
     roomId := default (roomId cfg) (opt_roomId p);
     worldId := default (worldId cfg) (opt_worldId p);
     serverUrl := default (serverUrl cfg) (opt_serverUrl p);
     connectionTimeout := default (connectionTimeout cfg) (opt_connectionTimeout p);
     responseTimeout := default (responseTimeout cfg) (opt_responseTimeout p) |}.

Definition criticalChange (old new : Config) : bool :=
  bool_decide (agentId old ≠ agentId new)
  || bool_decide (roomId old ≠ roomId new)
  || bool_decide (serverUrl old ≠ serverUrl new)
  || bool_decide (userId old ≠ userId new)
  || bool_decide (worldId old ≠ worldId new).

(** [agentId && roomId && serverUrl && userId && worldId] *)
Definition identity_populated (cfg : Config) : bool :=
  truthy (agentId cfg) && truthy (roomId cfg) && truthy (serverUrl cfg)
  && truthy (userId cfg) && truthy (worldId cfg).

(** *** Handlers registered on a socket and timer callbacks *)

(** The ['disconnect'] handler. *)
Definition on_disconnect (s : Client) : Client :=
  set_roomJoined false (updateState DISCONNECTED s).

(** The ['connect'] handler of the socket whose closure holds promise [c]
    and timer [t]. *)
Definition on_connect (c t : nat) (now : Z) (s : Client) : Client :=
  let s := clearTimeout t s in
  let s := set_connectionTime (now - connectionStartTime s) s in
  let s := updateState CONNECTED s in
  let s := joinRoom s in
  settle_connect c (Resolved VTrue) s.

(** The ['reconnect_failed'] handler. *)
Definition on_reconnect_failed (c : nat) (s : Client) : Client :=
  settle_connect c (Rejected err_reconnect_failed)
    (handleError err_reconnect_failed s).

(** The connection timer callback. *)
Definition connection_timeout_fires (c : nat) (s : Client) : Client :=
  if bool_decide (connectionState s ≠ CONNECTED) then
    let error := connection_timeout_message (connectionTimeout (config s)) in
    settle_connect c (Rejected error) (handleError error s)
  else s.

Inductive SocketEvent :=
| OnConnect (now : Z)
| OnConnectError
| OnReconnectAttempt (attemptNumber : nat)
| OnReconnectFailed
| OnDisconnect
| OnMessageBroadcast (data : AgentResponseMessage)
| OnMessageComplete.

(** The transport raises [ev] on socket [sid]; ['connect'] and
    ['disconnect'] come with the socket's [connected] flag already
    updated. *)
Definition socket_event (sid : nat) (ev : SocketEvent) (s : Client) : Client :=
  match sockets s !! sid with
  | None => s
  | Some sk =>
      match ev with
      | OnConnect now =>
          on_connect (sock_promise sk) (sock_timer sk) now
            (set_sockets (<[sid := set_sock_connected true sk]> (sockets s)) s)
      | OnConnectError => s
      | OnReconnectAttempt _ => s
      | OnReconnectFailed => on_reconnect_failed (sock_promise sk) s
      | OnDisconnect =>
          on_disconnect
            (set_sockets (<[sid := set_sock_connected false sk]> (sockets s)) s)
      | OnMessageBroadcast data => notifyMessageListeners data s
      | OnMessageComplete => s
      end
  end.

(** A timer comes due; a timer that was cleared or has fired never does. *)
Definition timer_fires (t : nat) (now : Z) (s : Client) : Client :=
  match timers s !! t with
  | None => s
  | Some a =>
      let s := clearTimeout t s in
      match a with
      | ConnectionTimeout c => connection_timeout_fires c s
      | WaitTimeout p waitTimeout => wait_timeout_fires p waitTimeout s
      | ResponseTimeout p messageId => response_timeout_fires p messageId s
      | GraceDelay newAgentId newRoomId o =>
          switchAgent_rest newAgentId newRoomId o now s
      end
  end.

Inductive Event :=
| CallConnect (now : Z)
| CallDisconnect
| CallSendMessage (messageText messageId : string) (now : Z)
| CallWaitForNextMessage (timeout : option N)
| CallSwitchAgent (newAgentId newRoomId : string) (now : Z)
| CallSetConfig (newConfigPartial : ElizaClientConfig) (now : Z)
| CallSendMessageAndGetResponse (messageText messageId : string) (now : Z)
| CallOnMessage (listener : nat)
| CallOnStateChange (listener : nat)
| CallOnError (listener : nat)
| FromSocket (sid : nat) (ev : SocketEvent)
| TimerFires (t : nat) (now : Z).

(** ** The transport's close

    [socket.disconnect()] belongs to socket.io, not to this repository.
    [sync_close] says whether closing a connected socket raises its
    ['disconnect'] event before [socket.disconnect()] returns, or leaves it
    to a later turn of the event loop. *)
Section Transport.

Variable sync_close : bool.

(** [disconnect()] *)
Definition disconnect (s : Client) : Client :=
  match socket s with
  | None => s
  | Some sid =>
      let s := log (FxClose sid) s in
      match sockets s !! sid with
      | Some sk =>
          if sync_close && sock_connected sk then
            on_disconnect
              (set_sockets (<[sid := set_sock_connected false sk]> (sockets s)) s)
          else s
      | None => s
      end
  end.

(** [switchAgent(newAgentId, newRoomId)] *)
Definition switchAgent (newAgentId newRoomId : string) (now : Z) (s : Client)
  : Client * nat :=
  let '(o, s) := new_id s in
  if bool_decide (newAgentId ≠ newRoomId) then
    (settle (PSwitch, o) (Rejected err_switch_differ) s, o)
  else if socket_connected s then
    let s := disconnect s in
    let '(t, s) := new_id s in
    (setTimeout t (GraceDelay newAgentId newRoomId o) s, o)
  else (switchAgent_rest newAgentId newRoomId o now s, o).

(** [setConfig(newConfigPartial)] *)
Definition setConfig (newConfigPartial : ElizaClientConfig) (now : Z)
    (s : Client) : Client * nat :=
  let '(o, s) := new_id s in
  let oldConfig := config s in
  let s := set_config (merge_config (config s) newConfigPartial) s in
  let critical := criticalChange oldConfig (config s) in
  let s :=
    if critical && bool_decide (connectionState s ≠ DISCONNECTED)
    then disconnect s else s in
  if bool_decide (connectionState s = DISCONNECTED)
     || (critical && bool_decide (connectionState s ≠ CONNECTING))
  then
    if identity_populated (config s) then
      let '(s, c) := connect now s in
      (await_connect c (KSetConfig o) s, o)
    else (settle (PSetConfig, o) (Resolved VVoid) (updateState DISCONNECTED s), o)
  else (settle (PSetConfig, o) (Resolved VVoid) s, o).

(** One turn of the event loop. *)
Definition step (ev : Event) (s : Client) : Client :=
  match ev with
  | CallConnect now => (connect now s).1
  | CallDisconnect => disconnect s
  | CallSendMessage messageText messageId now =>
      (sendMessage messageText messageId now s).1
  | CallWaitForNextMessage timeout => (waitForNextMessage timeout s).1
  | CallSwitchAgent newAgentId newRoomId now =>
      (switchAgent newAgentId newRoomId now s).1
  | CallSetConfig newConfigPartial now => (setConfig newConfigPartial now s).1
  | CallSendMessageAndGetResponse messageText messageId now =>
      (sendMessageAndGetResponse messageText messageId now s).1
  | CallOnMessage l => onMessage l s
  | CallOnStateChange l => onStateChange l s
  | CallOnError l => onError l s
  | FromSocket sid ev => socket_event sid ev s
  | TimerFires t now => timer_fires t now s
  end.

Definition run (evs : list Event) (s : Client) : Client :=
  foldl (λ s ev, step ev s) s evs.

End Transport.

(** ** Vocabulary of the specification *)

Definition kont_ref (k : Kont) : nat :=
  match k with
  | KSendMessage _ _ o | KSendAndGet _ _ o | KSwitch o | KSetConfig o => o
  end.

Definition timer_ref (a : TimerAction) : nat :=
  match a with
  | ConnectionTimeout c => c
  | WaitTimeout p _ | ResponseTimeout p _ => p
  | GraceDelay _ _ o => o
  end.

Definition is_wait (r : Resolver) : Prop := res_kind r = FromWait.

#[global] Instance is_wait_dec r : Decision (is_wait r).
Proof. unfold is_wait. apply _. Defined.

(** The [sendMessageAndGetResponse] calls suspended at their
    [await this.connect()], as the promises they will settle. *)
Definition send_outers (s : Client) : list nat :=
  omap (λ ck, match ck.2 with KSendAndGet _ _ o => Some o | _ => None end)
    (awaiting s).

Definition response_timer_ok (outs : list nat) (a : TimerAction) : Prop :=
  match a with
  | ResponseTimeout p _ => p ∉ outs
  | _ => True
  end.

#[global] Instance response_timer_ok_dec outs a :
  Decision (response_timer_ok outs a).
Proof. destruct a; simpl; apply _. Defined.

(** Well-formed run-time stores: every identifier the client holds was
    handed out by [new_id]; the closures of [waitForNextMessage] in the
    waiter set are pairwise distinct; a [sendMessageAndGetResponse] call is
    suspended at most once, and it has no response timer while it is. *)
Definition wf (s : Client) : Prop :=
  map_Forall (λ k _, k.2 < nextId s) (promises s)
  ∧ map_Forall (λ t a, t < nextId s ∧ timer_ref a < nextId s) (timers s)
  ∧ Forall (λ r, res_promise r < nextId s ∧ res_timer r < nextId s) (resolvers s)
  ∧ NoDup (res_promise <$> filter is_wait (resolvers s))
  ∧ Forall (λ sk, sock_promise sk < nextId s ∧ sock_timer sk < nextId s) (sockets s)
  ∧ Forall (λ ck, ck.1 < nextId s ∧ kont_ref ck.2 < nextId s) (awaiting s)
  ∧ NoDup (send_outers s)
  ∧ map_Forall (λ _ a, response_timer_ok (send_outers s) a) (timers s).

#[global] Instance wf_dec s : Decision (wf s).
Proof. unfold wf. apply _. Defined.

(** A text with nothing but whitespace in it (the empty text included). *)
Definition whitespace_only (t : string) : Prop :=
  Forall (λ c, is_whitespace c = true) (list_ascii_of_string t).

(** An envelope the filter of [notifyMessageListeners] turns away, in the
    words of the specification. *)
Definition foreign_or_blank (s : Client) (data : AgentResponseMessage) : Prop :=
  msg_senderId data ≠ Some (agentId (config s))
  ∨ msg_text data = None
  ∨ ∃ t, msg_text data = Some t ∧ whitespace_only t.

(** The waiter set as the promises its closures settle. *)
Definition waiting (s : Client) : list (PromiseKind * nat) :=
  resolver_key <$> resolvers s.

(** How often [connect()] was entered. *)
Definition connect_calls (s : Client) : nat :=
  length (filter (λ e, e = FxConnectCall) (trace s)).

(** How many transports were opened and how many envelopes were emitted. *)
Definition is_open (e : Effect) : bool :=
  match e with FxOpen _ _ _ _ _ => true | _ => false end.

Definition is_emit (e : Effect) : bool :=
  match e with FxEmit _ _ => true | _ => false end.

Definition opens (s : Client) : nat := length (filter (λ e, is_open e = true) (trace s)).

Definition emits (s : Client) : nat := length (filter (λ e, is_emit e = true) (trace s)).

(** The events that belong to the connect attempt with promise [c]: the
    ['connect'] and ['reconnect_failed'] events of its socket and its
    connection timer coming due. *)
Definition settles_attempt (c : nat) (s : Client) (ev : Event) : Prop :=
  match ev with
  | FromSocket sid (OnConnect _) | FromSocket sid OnReconnectFailed =>
      sock_promise <$> sockets s !! sid = Some c
  | TimerFires t _ => timers s !! t = Some (ConnectionTimeout c)
  | _ => False
  end.

(** The state a [switchAgent(t, t)] must have produced by the time it
    calls [connect()]. *)
Definition reset_for (t : string) (s : Client) : Prop :=
  messageQueue s = [] ∧ resolvers s = [] ∧ roomJoined s = false
  ∧ agentId (config s) = t ∧ roomId (config s) = t.

(** Schedules of [waitForNextMessage] calls and broadcast deliveries. *)
Inductive Op :=
| OpWait (timeout : option N)
| OpReply (data : AgentResponseMessage).

Definition apply_op (op : Op) (s : Client) : Client :=
  match op with
  | OpWait timeout => (waitForNextMessage timeout s).1
  | OpReply data => notifyMessageListeners data s
  end.

Definition run_ops (ops : list Op) (s : Client) : Client :=
  foldl (λ s op, apply_op op s) s ops.

(** The promises returned by the [waitForNextMessage] calls of a schedule,
    in call order. *)
Fixpoint waiters_of (ops : list Op) (s : Client) : list nat :=
  match ops with
  | [] => []
  | OpWait timeout :: ops' =>
      (waitForNextMessage timeout s).2 :: waiters_of ops' (apply_op (OpWait timeout) s)
  | op :: ops' => waiters_of ops' (apply_op op s)
  end.

(** The valid replies of a schedule, in arrival order. *)
Fixpoint replies_of (ops : list Op) (s : Client) : list AgentResponseMessage :=
  match ops with
  | [] => []
  | OpReply data :: ops' =>
      (if is_valid_reply s data then [data] else [])
      ++ replies_of ops' (apply_op (OpReply data) s)
  | op :: ops' => replies_of ops' (apply_op op s)
  end.

(** The waiter of kind [kd] with promise [p]. *)
Definition in_waiter_set (kd : ResolverKind) (p : nat) (s : Client) : Prop :=
  Exists (λ r, is_resolver kd p r = true) (resolvers s).

Definition waiter_timer (a : TimerAction) (kd : ResolverKind) (p : nat) : Prop :=
  match a with
  | WaitTimeout p' _ => kd = FromWait ∧ p' = p
  | ResponseTimeout p' _ => kd = FromSendAndGet ∧ p' = p
  | _ => False
  end.

Definition waiter_key (kd : ResolverKind) (p : nat) : PromiseKind * nat :=
  (match kd with FromWait => PWait | FromSendAndGet => PSendAndGet end, p).

(** A waiter that is gone for good: its closure is not in the waiter set
    and its call is not suspended either. *)
Definition retired (kd : ResolverKind) (p : nat) (s : Client) : Prop :=
  p < nextId s ∧ ¬ in_waiter_set kd p s
  ∧ (kd = FromSendAndGet → p ∉ send_outers s).

(** What a suspended method may assume when it is resumed. *)
Definition resumable (j : Kont) (s : Client) : Prop :=
  kont_ref j < nextId s
  ∧ ∀ m i o, j = KSendAndGet m i o → o ∉ send_outers s.

(** A settlement that has a rejected [connect()] promise behind it when it
    is a rejection. *)
Definition backed (r : Settled) (s : Client) : Prop :=
  ∀ e, r = Rejected e → ∃ c, promises s !! (PConnect, c) = Some (Rejected e).

(** How the stores evolve.

    [evolves Q s s']: from [s] to [s'] identifiers are only handed out,
    settled promises keep their value, no timer comes back under an old
    identifier, a [sendMessageAndGetResponse] promise is rejected only with
    the error of a rejected [connect()] promise, and a pending [connect()]
    promise that settles is a new one or one that [Q] allows. *)
Definition evolves (Q : nat → Prop) (s s' : Client) : Prop :=
  (nextId s ≤ nextId s')%nat
  ∧ (∀ k v, promises s !! k = Some v → promises s' !! k = Some v)
  ∧ (∀ t : nat, t < nextId s → timers s !! t = None → timers s' !! t = None)
  ∧ (∀ o e, promises s !! (PSendAndGet, o) = None →
       promises s' !! (PSendAndGet, o) = Some (Rejected e) →
       ∃ c, promises s' !! (PConnect, c) = Some (Rejected e))
  ∧ (∀ c r, promises s !! (PConnect, c) = None →
       promises s' !! (PConnect, c) = Some r → (nextId s ≤ c)%nat ∨ Q c).

(** Where waiters come from.

    [grows A B s s']: a closure in the waiter set of [s'] was there in [s],
    or settles a promise created since, or belongs to a
    [sendMessageAndGetResponse] call that [A] allows; a call suspended in
    [s'] was suspended in [s] or is one that [B] allows. *)
Definition grows (A B : nat → Prop) (s s' : Client) : Prop :=
  (nextId s ≤ nextId s')%nat
  ∧ (∀ r, r ∈ resolvers s' →
       r ∈ resolvers s ∨ (nextId s ≤ res_promise r)%nat
       ∨ (res_kind r = FromSendAndGet ∧ A (res_promise r)))
  ∧ (∀ o, o ∈ send_outers s' → o ∈ send_outers s ∨ B o).

(** The state between two steps of a schedule: replies are queued only
    while nobody waits, and the waiter set holds [waitForNextMessage]
    closures whose promises are pending. *)
Definition balanced (s : Client) : Prop :=
  wf s
  ∧ (messageQueue s = [] ∨ resolvers s = [])
  ∧ Forall (λ r, res_kind r = FromWait
                 ∧ promises s !! (PWait, res_promise r) = None) (resolvers s).

(** ** Sample sessions *)

Definition sample_config : ElizaClientConfig :=
  {| opt_agentId := Some "agent-1"; opt_userId := Some "user-1";
     opt_roomId := Some "agent-1"; opt_worldId := Some "world-1";
     opt_serverUrl := Some "http://localhost:3000";
     opt_connectionTimeout := None; opt_responseTimeout := None |}.

Definition no_change : ElizaClientConfig :=
  {| opt_agentId := None; opt_userId := None; opt_roomId := None;
     opt_worldId := None; opt_serverUrl := None;
     opt_connectionTimeout := None; opt_responseTimeout := None |}.

Definition text_from (sender text : string) : AgentResponseMessage :=
  {| msg_id := None; msg_text := Some text; msg_message := None;
     msg_content := None; msg_error := None; msg_senderId := Some sender;
     msg_status := None; msg_payload := None |}.

(** A fresh client, one with a connect attempt in flight, and one that is
    connected and has joined its room. *)
Definition fresh_session : Client := new_client (Some sample_config).

Definition connecting_session : Client := (connect 1000 fresh_session).1.

Definition connected_session : Client :=
  socket_event 0 (OnConnect 1040) connecting_session.

(** [waitForNextMessage()] on the connected session: promise 2, timer 3. *)
Definition waiting_session : Client :=
  (waitForNextMessage None connected_session).1.

Definition waiting_resolver : Resolver :=
  {| res_kind := FromWait; res_promise := 2; res_timer := 3 |}.

(** [sendMessageAndGetResponse("ping")] on the connected session:
    promise 2, timer 3. *)
Definition asking_session : Client :=
  (sendMessageAndGetResponse "ping" "mcp-msg-1" 2000 connected_session).1.

(** A reply that arrived while nobody was waiting. *)
Definition early_reply : AgentResponseMessage := text_from "agent-1" "early".

Definition queued_session : Client :=
  notifyMessageListeners early_reply connected_session.

(** W1, R1, a foreign envelope, R2, W2, W3, R3. *)
Definition sample_schedule : list Op :=
  [ OpWait None; OpReply (text_from "agent-1" "one");
    OpReply (text_from "agent-7" "noise"); OpReply (text_from "agent-1" "two");
    OpWait None; OpWait (Some 500%N); OpReply (text_from "agent-1" "three") ].

(** A client configured with a room that is not its agent. *)
Definition misconfigured_session : Client :=
  new_client
    (Some {| opt_agentId := Some "agent-1"; opt_userId := Some "user-1";
             opt_roomId := Some "room-2"; opt_worldId := Some "world-1";
             opt_serverUrl := Some "http://localhost:3000";
             opt_connectionTimeout := None; opt_responseTimeout := None |}).

Definition retarget (target : string) : ElizaClientConfig :=
  {| opt_agentId := Some target; opt_userId := None; opt_roomId := Some target;
     opt_worldId := None; opt_serverUrl := None;
     opt_connectionTimeout := None; opt_responseTimeout := None |}.

Definition reroom (room : string) : ElizaClientConfig :=
  {| opt_agentId := None; opt_userId := None; opt_roomId := Some room;
     opt_worldId := None; opt_serverUrl := None;
     opt_connectionTimeout := None; opt_responseTimeout := None |}.

(** A session that was connected, lost its transport, had its room changed
    while down, and whose socket then reconnected by itself. *)
Definition drifted_session (sync_close : bool) : Client :=
  run sync_close
    [ CallConnect 1000; FromSocket 0 (OnConnect 1040); FromSocket 0 OnDisconnect;
      CallSetConfig (reroom "room-2") 5000; FromSocket 0 (OnConnect 9000) ]
    fresh_session.

(** A connected session with a queued reply and a pending
    [sendMessageAndGetResponse] call (promise 2, timer 3), and the same
    session once its transport has dropped. *)
Definition busy_session : Client :=
  (sendMessageAndGetResponse "ping" "mcp-msg-1" 2000 queued_session).1.

Definition dropped_session : Client :=
  socket_event 0 OnDisconnect busy_session.

(** A client with a state observer (listener 7) registered before its
    first [connect()]: with the attempt in flight, and with the attempt
    timed out. *)
Definition observed_session : Client := onStateChange 7 fresh_session.

Definition connecting_observed : Client := (connect 1000 observed_session).1.

Definition timed_out_session : Client := timer_fires 1 121000 connecting_observed.

(** * Proofs *)

(** ** Whitespace and [trim] *)

Lemma trim_start_empty t : trim_start t = "" ↔ whitespace_only t.
Proof.
  unfold whitespace_only. induction t as [|c t IH]; simpl.
  - split; [constructor | done].
  - destruct (is_whitespace c) eqn:Hc.
    + rewrite IH. split; [by constructor | by inversion 1].
    + split; [done | inversion 1; congruence].
Qed.

Lemma trim_start_head c u t : trim_start t = String c u → is_whitespace c = false.
Proof.
  induction t as [|d t IH]; simpl; [done|].
  destruct (is_whitespace d) eqn:Hd; [done|]. by intros [= -> ->].
Qed.

Lemma trim_end_empty t : trim_end t = "" ↔ whitespace_only t.
Proof.
  unfold whitespace_only. induction t as [|c t IH]; simpl.
  - split; [constructor | done].
  - destruct (trim_end t) eqn:Ht.
    + destruct (is_whitespace c) eqn:Hc.
      * split; [intros _; constructor; [done | by apply IH] | done].
      * split; [done | inversion 1; congruence].
    + split; [done|]. inversion 1 as [|? ? ? Hall]; subst.
      apply IH in Hall. done.
Qed.

Lemma trim_empty t : trim t = "" ↔ whitespace_only t.
Proof.
  unfold trim. rewrite trim_end_empty. split.
  - intros Hw. destruct (trim_start t) as [|c u] eqn:Ht.
    + by apply trim_start_empty.
    + apply trim_start_head in Ht. unfold whitespace_only in Hw. simpl in Hw.
      inversion Hw; congruence.
  - intros Hw. apply trim_start_empty in Hw. rewrite Hw. constructor.
Qed.

Lemma is_valid_reply_true s data :
  is_valid_reply s data = true ↔
  ∃ t, msg_text data = Some t ∧ ¬ whitespace_only t
       ∧ msg_senderId data = Some (agentId (config s)).
Proof.
  unfold is_valid_reply, truthy. split.
  - destruct (msg_text data) as [t|]; [|done].
    rewrite !andb_true_iff, !bool_decide_eq_true. intros [[_ Ht] Hs].
    exists t. split_and!; [done| |done]. by rewrite <- trim_empty.
  - intros (t & -> & Ht & Hs). rewrite <- trim_empty in Ht.
    rewrite !andb_true_iff, !bool_decide_eq_true. split_and!; [|done..].
    intros ->. by apply Ht.
Qed.

Lemma is_valid_reply_false s data :
  is_valid_reply s data = false ↔ foreign_or_blank s data.
Proof.
  rewrite <- not_true_iff_false, is_valid_reply_true. unfold foreign_or_blank.
  split.
  - intros Hn. destruct (msg_text data) as [t|] eqn:Ht; [|by right; left].
    destruct (decide (msg_senderId data = Some (agentId (config s)))) as [Hs|Hs];
      [|by left].
    right; right. exists t. split; [done|].
    destruct (decide (whitespace_only t)) as [|Hw]; [done|].
    destruct Hn. by exists t.
  - intros [Hs|[Ht|(t & Ht & Hw)]] (u & Hu & Hnw & Hsu); simplify_eq. done.
Qed.

(** ** Inbound filtering *)

(** C3 (filtering).  An envelope whose sender is not the configured agent,
    or whose text is absent, empty or whitespace-only, is handed to every
    registered message observer, in registration order, and to nothing
    else: the queue, the waiter set, the promises and the timers are as
    before.  The filter turns away exactly these envelopes: the ones it
    lets through to the queue have a text with a non-whitespace character
    and the configured agent as sender. *)
Theorem inbound_filtering (s : Client) (data : AgentResponseMessage) :
  let s' := notifyMessageListeners data s in
  (foreign_or_blank s data →
     trace s' = trace s ++ ((λ l, FxMessage l data) <$> messageListeners s)
     ∧ messageQueue s' = messageQueue s
     ∧ resolvers s' = resolvers s
     ∧ promises s' = promises s
     ∧ timers s' = timers s)
  ∧ (is_valid_reply s data = false ↔ foreign_or_blank s data)
  ∧ (is_valid_reply s data = true ↔
       ∃ t, msg_text data = Some t ∧ ¬ whitespace_only t
            ∧ msg_senderId data = Some (agentId (config s))).
Proof.
  split_and!.
  - intros Hf. apply is_valid_reply_false in Hf.
    unfold notifyMessageListeners. rewrite Hf. done.
  - apply is_valid_reply_false.
  - apply is_valid_reply_true.
Qed.

Lemma inbound_filtering_witness :
  let s := onMessage 7 connected_session in
  let data := text_from "agent-1" "  " in
  let s' := notifyMessageListeners data s in
  foreign_or_blank s data
  ∧ trace s' = trace s ++ ((λ l, FxMessage l data) <$> messageListeners s)
  ∧ messageQueue s' = messageQueue s
  ∧ resolvers s' = resolvers s
  ∧ promises s' = promises s
  ∧ timers s' = timers s.
Proof.
  intros s data s'.
  assert (H : foreign_or_blank s data).
  { right; right. exists "  ". split; [reflexivity|]. repeat constructor. }
  split; [exact H|].
  exact (proj1 (inbound_filtering s data) H).
Defined.

(** ** What the helpers leave alone *)

Lemma updateState_socket st s : socket (updateState st s) = socket s.
Proof. unfold updateState. by case_decide. Qed.

Lemma updateState_sockets st s : sockets (updateState st s) = sockets s.
Proof. unfold updateState. by case_decide. Qed.

Lemma updateState_config st s : config (updateState st s) = config s.
Proof. unfold updateState. by case_decide. Qed.

Lemma updateState_connectionStartTime st s : connectionStartTime (updateState st s) = connectionStartTime s.
Proof. unfold updateState. by case_decide. Qed.

Lemma updateState_connectionTime st s : connectionTime (updateState st s) = connectionTime s.
Proof. unfold updateState. by case_decide. Qed.

Lemma updateState_roomJoined st s : roomJoined (updateState st s) = roomJoined s.
Proof. unfold updateState. by case_decide. Qed.

Lemma updateState_messageListeners st s : messageListeners (updateState st s) = messageListeners s.
Proof. unfold updateState. by case_decide. Qed.

Lemma updateState_stateChangeListeners st s : stateChangeListeners (updateState st s) = stateChangeListeners s.
Proof. unfold updateState. by case_decide. Qed.

Lemma updateState_errorListeners st s : errorListeners (updateState st s) = errorListeners s.
Proof. unfold updateState. by case_decide. Qed.

Lemma updateState_messageQueue st s : messageQueue (updateState st s) = messageQueue s.
Proof. unfold updateState. by case_decide. Qed.

Lemma updateState_resolvers st s : resolvers (updateState st s) = resolvers s.
Proof. unfold updateState. by case_decide. Qed.

Lemma updateState_nextId st s : nextId (updateState st s) = nextId s.
Proof. unfold updateState. by case_decide. Qed.

Lemma updateState_promises st s : promises (updateState st s) = promises s.
Proof. unfold updateState. by case_decide. Qed.

Lemma updateState_timers st s : timers (updateState st s) = timers s.
Proof. unfold updateState. by case_decide. Qed.

Lemma updateState_awaiting st s : awaiting (updateState st s) = awaiting s.
Proof. unfold updateState. by case_decide. Qed.

Lemma handleError_socket err s : socket (handleError err s) = socket s.
Proof. unfold handleError, updateState. by case_decide. Qed.

Lemma handleError_sockets err s : sockets (handleError err s) = sockets s.
Proof. unfold handleError, updateState. by case_decide. Qed.

Lemma handleError_config err s : config (handleError err s) = config s.
Proof. unfold handleError, updateState. by case_decide. Qed.

Lemma handleError_connectionStartTime err s : connectionStartTime (handleError err s) = connectionStartTime s.
Proof. unfold handleError, updateState. by case_decide. Qed.

Lemma handleError_connectionTime err s : connectionTime (handleError err s) = connectionTime s.
Proof. unfold handleError, updateState. by case_decide. Qed.

Lemma handleError_roomJoined err s : roomJoined (handleError err s) = roomJoined s.
Proof. unfold handleError, updateState. by case_decide. Qed.

Lemma handleError_messageListeners err s : messageListeners (handleError err s) = messageListeners s.
Proof. unfold handleError, updateState. by case_decide. Qed.

Lemma handleError_stateChangeListeners err s : stateChangeListeners (handleError err s) = stateChangeListeners s.
Proof. unfold handleError, updateState. by case_decide. Qed.

Lemma handleError_errorListeners err s : errorListeners (handleError err s) = errorListeners s.
Proof. unfold handleError, updateState. by case_decide. Qed.

Lemma handleError_messageQueue err s : messageQueue (handleError err s) = messageQueue s.
Proof. unfold handleError, updateState. by case_decide. Qed.

Lemma handleError_resolvers err s : resolvers (handleError err s) = resolvers s.
Proof. unfold handleError, updateState. by case_decide. Qed.

Lemma handleError_nextId err s : nextId (handleError err s) = nextId s.
Proof. unfold handleError, updateState. by case_decide. Qed.

Lemma handleError_promises err s : promises (handleError err s) = promises s.
Proof. unfold handleError, updateState. by case_decide. Qed.

Lemma handleError_timers err s : timers (handleError err s) = timers s.
Proof. unfold handleError, updateState. by case_decide. Qed.

Lemma handleError_awaiting err s : awaiting (handleError err s) = awaiting s.
Proof. unfold handleError, updateState. by case_decide. Qed.

Lemma emit_socket m s : socket (emit m s) = socket s.
Proof. unfold emit. by destruct (socket s) eqn:E. Qed.

Lemma emit_sockets m s : sockets (emit m s) = sockets s.
Proof. unfold emit. by destruct (socket s) eqn:E. Qed.

Lemma emit_config m s : config (emit m s) = config s.
Proof. unfold emit. by destruct (socket s) eqn:E. Qed.

Lemma emit_connectionState m s : connectionState (emit m s) = connectionState s.
Proof. unfold emit. by destruct (socket s) eqn:E. Qed.

Lemma emit_connectionStartTime m s : connectionStartTime (emit m s) = connectionStartTime s.
Proof. unfold emit. by destruct (socket s) eqn:E. Qed.

Lemma emit_connectionTime m s : connectionTime (emit m s) = connectionTime s.
Proof. unfold emit. by destruct (socket s) eqn:E. Qed.

Lemma emit_roomJoined m s : roomJoined (emit m s) = roomJoined s.
Proof. unfold emit. by destruct (socket s) eqn:E. Qed.

Lemma emit_messageListeners m s : messageListeners (emit m s) = messageListeners s.
Proof. unfold emit. by destruct (socket s) eqn:E. Qed.

Lemma emit_stateChangeListeners m s : stateChangeListeners (emit m s) = stateChangeListeners s.
Proof. unfold emit. by destruct (socket s) eqn:E. Qed.

Lemma emit_errorListeners m s : errorListeners (emit m s) = errorListeners s.
Proof. unfold emit. by destruct (socket s) eqn:E. Qed.

Lemma emit_messageQueue m s : messageQueue (emit m s) = messageQueue s.
Proof. unfold emit. by destruct (socket s) eqn:E. Qed.

Lemma emit_resolvers m s : resolvers (emit m s) = resolvers s.
Proof. unfold emit. by destruct (socket s) eqn:E. Qed.

Lemma emit_nextId m s : nextId (emit m s) = nextId s.
Proof. unfold emit. by destruct (socket s) eqn:E. Qed.

Lemma emit_promises m s : promises (emit m s) = promises s.
Proof. unfold emit. by destruct (socket s) eqn:E. Qed.

Lemma emit_timers m s : timers (emit m s) = timers s.
Proof. unfold emit. by destruct (socket s) eqn:E. Qed.

Lemma emit_awaiting m s : awaiting (emit m s) = awaiting s.
Proof. unfold emit. by destruct (socket s) eqn:E. Qed.

Lemma joinRoom_socket s : socket (joinRoom s) = socket s.
Proof. unfold joinRoom, emit. by repeat case_match. Qed.

Lemma joinRoom_sockets s : sockets (joinRoom s) = sockets s.
Proof. unfold joinRoom, emit. by repeat case_match. Qed.

Lemma joinRoom_config s : config (joinRoom s) = config s.
Proof. unfold joinRoom, emit. by repeat case_match. Qed.

Lemma joinRoom_connectionState s : connectionState (joinRoom s) = connectionState s.
Proof. unfold joinRoom, emit. by repeat case_match. Qed.

Lemma joinRoom_connectionStartTime s : connectionStartTime (joinRoom s) = connectionStartTime s.
Proof. unfold joinRoom, emit. by repeat case_match. Qed.

Lemma joinRoom_connectionTime s : connectionTime (joinRoom s) = connectionTime s.
Proof. unfold joinRoom, emit. by repeat case_match. Qed.

Lemma joinRoom_messageListeners s : messageListeners (joinRoom s) = messageListeners s.
Proof. unfold joinRoom, emit. by repeat case_match. Qed.

Lemma joinRoom_stateChangeListeners s : stateChangeListeners (joinRoom s) = stateChangeListeners s.
Proof. unfold joinRoom, emit. by repeat case_match. Qed.

Lemma joinRoom_errorListeners s : errorListeners (joinRoom s) = errorListeners s.
Proof. unfold joinRoom, emit. by repeat case_match. Qed.

Lemma joinRoom_messageQueue s : messageQueue (joinRoom s) = messageQueue s.
Proof. unfold joinRoom, emit. by repeat case_match. Qed.

Lemma joinRoom_resolvers s : resolvers (joinRoom s) = resolvers s.
Proof. unfold joinRoom, emit. by repeat case_match. Qed.

Lemma joinRoom_nextId s : nextId (joinRoom s) = nextId s.
Proof. unfold joinRoom, emit. by repeat case_match. Qed.

Lemma joinRoom_promises s : promises (joinRoom s) = promises s.
Proof. unfold joinRoom, emit. by repeat case_match. Qed.

Lemma joinRoom_timers s : timers (joinRoom s) = timers s.
Proof. unfold joinRoom, emit. by repeat case_match. Qed.

Lemma joinRoom_awaiting s : awaiting (joinRoom s) = awaiting s.
Proof. unfold joinRoom, emit. by repeat case_match. Qed.

Lemma on_disconnect_socket s : socket (on_disconnect s) = socket s.
Proof. unfold on_disconnect, updateState. by case_decide. Qed.

Lemma on_disconnect_sockets s : sockets (on_disconnect s) = sockets s.
Proof. unfold on_disconnect, updateState. by case_decide. Qed.

Lemma on_disconnect_config s : config (on_disconnect s) = config s.
Proof. unfold on_disconnect, updateState. by case_decide. Qed.

Lemma on_disconnect_connectionStartTime s : connectionStartTime (on_disconnect s) = connectionStartTime s.
Proof. unfold on_disconnect, updateState. by case_decide. Qed.

Lemma on_disconnect_connectionTime s : connectionTime (on_disconnect s) = connectionTime s.
Proof. unfold on_disconnect, updateState. by case_decide. Qed.

Lemma on_disconnect_messageListeners s : messageListeners (on_disconnect s) = messageListeners s.
Proof. unfold on_disconnect, updateState. by case_decide. Qed.

Lemma on_disconnect_stateChangeListeners s : stateChangeListeners (on_disconnect s) = stateChangeListeners s.
Proof. unfold on_disconnect, updateState. by case_decide. Qed.

Lemma on_disconnect_errorListeners s : errorListeners (on_disconnect s) = errorListeners s.
Proof. unfold on_disconnect, updateState. by case_decide. Qed.

Lemma on_disconnect_messageQueue s : messageQueue (on_disconnect s) = messageQueue s.
Proof. unfold on_disconnect, updateState. by case_decide. Qed.

Lemma on_disconnect_resolvers s : resolvers (on_disconnect s) = resolvers s.
Proof. unfold on_disconnect, updateState. by case_decide. Qed.

Lemma on_disconnect_nextId s : nextId (on_disconnect s) = nextId s.
Proof. unfold on_disconnect, updateState. by case_decide. Qed.

Lemma on_disconnect_promises s : promises (on_disconnect s) = promises s.
Proof. unfold on_disconnect, updateState. by case_decide. Qed.

Lemma on_disconnect_timers s : timers (on_disconnect s) = timers s.
Proof. unfold on_disconnect, updateState. by case_decide. Qed.

Lemma on_disconnect_awaiting s : awaiting (on_disconnect s) = awaiting s.
Proof. unfold on_disconnect, updateState. by case_decide. Qed.

Lemma settle_socket k r s : socket (settle k r s) = socket s.
Proof. unfold settle. by destruct (promises s !! k). Qed.

Lemma settle_sockets k r s : sockets (settle k r s) = sockets s.
Proof. unfold settle. by destruct (promises s !! k). Qed.

Lemma settle_config k r s : config (settle k r s) = config s.
Proof. unfold settle. by destruct (promises s !! k). Qed.

Lemma settle_connectionState k r s : connectionState (settle k r s) = connectionState s.
Proof. unfold settle. by destruct (promises s !! k). Qed.

Lemma settle_connectionStartTime k r s : connectionStartTime (settle k r s) = connectionStartTime s.
Proof. unfold settle. by destruct (promises s !! k). Qed.

Lemma settle_connectionTime k r s : connectionTime (settle k r s) = connectionTime s.
Proof. unfold settle. by destruct (promises s !! k). Qed.

Lemma settle_roomJoined k r s : roomJoined (settle k r s) = roomJoined s.
Proof. unfold settle. by destruct (promises s !! k). Qed.

Lemma settle_messageListeners k r s : messageListeners (settle k r s) = messageListeners s.
Proof. unfold settle. by destruct (promises s !! k). Qed.

Lemma settle_stateChangeListeners k r s : stateChangeListeners (settle k r s) = stateChangeListeners s.
Proof. unfold settle. by destruct (promises s !! k). Qed.

Lemma settle_errorListeners k r s : errorListeners (settle k r s) = errorListeners s.
Proof. unfold settle. by destruct (promises s !! k). Qed.

Lemma settle_messageQueue k r s : messageQueue (settle k r s) = messageQueue s.
Proof. unfold settle. by destruct (promises s !! k). Qed.

Lemma settle_resolvers k r s : resolvers (settle k r s) = resolvers s.
Proof. unfold settle. by destruct (promises s !! k). Qed.

Lemma settle_nextId k r s : nextId (settle k r s) = nextId s.
Proof. unfold settle. by destruct (promises s !! k). Qed.

Lemma settle_timers k r s : timers (settle k r s) = timers s.
Proof. unfold settle. by destruct (promises s !! k). Qed.

Lemma settle_awaiting k r s : awaiting (settle k r s) = awaiting s.
Proof. unfold settle. by destruct (promises s !! k). Qed.

Lemma settle_trace k r s : trace (settle k r s) = trace s.
Proof. unfold settle. by destruct (promises s !! k). Qed.

Create Rewrite HintDb client.

#[global] Hint Rewrite
  updateState_socket updateState_sockets updateState_config
  updateState_connectionStartTime updateState_connectionTime updateState_roomJoined
  updateState_messageListeners updateState_stateChangeListeners updateState_errorListeners
  updateState_messageQueue updateState_resolvers updateState_nextId
  updateState_promises updateState_timers updateState_awaiting
  handleError_socket handleError_sockets handleError_config
  handleError_connectionStartTime handleError_connectionTime handleError_roomJoined
  handleError_messageListeners handleError_stateChangeListeners handleError_errorListeners
  handleError_messageQueue handleError_resolvers handleError_nextId
  handleError_promises handleError_timers handleError_awaiting
  emit_socket emit_sockets emit_config
  emit_connectionState emit_connectionStartTime emit_connectionTime
  emit_roomJoined emit_messageListeners emit_stateChangeListeners
  emit_errorListeners emit_messageQueue emit_resolvers
  emit_nextId emit_promises emit_timers
  emit_awaiting joinRoom_socket joinRoom_sockets
  joinRoom_config joinRoom_connectionState joinRoom_connectionStartTime
  joinRoom_connectionTime joinRoom_messageListeners joinRoom_stateChangeListeners
  joinRoom_errorListeners joinRoom_messageQueue joinRoom_resolvers
  joinRoom_nextId joinRoom_promises joinRoom_timers
  joinRoom_awaiting on_disconnect_socket on_disconnect_sockets
  on_disconnect_config on_disconnect_connectionStartTime on_disconnect_connectionTime
  on_disconnect_messageListeners on_disconnect_stateChangeListeners on_disconnect_errorListeners
  on_disconnect_messageQueue on_disconnect_resolvers on_disconnect_nextId
  on_disconnect_promises on_disconnect_timers on_disconnect_awaiting
  settle_socket settle_sockets settle_config
  settle_connectionState settle_connectionStartTime settle_connectionTime
  settle_roomJoined settle_messageListeners settle_stateChangeListeners
  settle_errorListeners settle_messageQueue settle_resolvers
  settle_nextId settle_timers settle_awaiting
  settle_trace
  : client.

(** ** Fresh identifiers *)

Lemma wf_fresh (s : Client) (k : PromiseKind) (n : nat) : wf s → (nextId s ≤ n)%nat → promises s !! (k, n) = None.
Proof.
  intros (Hp & _) Hn. destruct (promises s !! (k, n)) eqn:E; [|done].
  apply Hp in E. simpl in E. lia.
Qed.

Lemma settle_lookup k r s :
  promises s !! k = None → promises (settle k r s) !! k = Some r.
Proof. intros E. unfold settle. rewrite E. simpl. by rewrite lookup_insert_eq. Qed.

Lemma settle_lookup_ne k k' r s :
  k ≠ k' → promises (settle k r s) !! k' = promises s !! k'.
Proof.
  intros Hk. unfold settle. destruct (promises s !! k); [done|].
  simpl. by rewrite lookup_insert_ne.
Qed.

(** ** Idempotent connect *)

Lemma connect_connected now s :
  socket_connected s = true →
  connect now s
  = (settle (PConnect, nextId s) (Resolved VTrue)
       (set_nextId (S (nextId s)) (log FxConnectCall s)), nextId s).
Proof. intros H. unfold connect. simpl. unfold socket_connected in *. simpl. by rewrite H. Qed.

(** C6 (idempotent connect).  While the transport is connected, a
    [connect()] call resolves with [true] and so does a second one: the
    two calls open no transport and emit no envelope, no join envelope in
    particular, and sockets, timers, connection state and membership flag
    are as before.  A [joinRoom] when the room is joined changes
    nothing. *)
Theorem connect_idempotent (now now' : Z) (s : Client) :
  wf s → socket_connected s = true →
  let r1 := connect now s in
  let r2 := connect now' r1.1 in
  promises r1.1 !! (PConnect, r1.2) = Some (Resolved VTrue)
  ∧ promises r2.1 !! (PConnect, r2.2) = Some (Resolved VTrue)
  ∧ trace r2.1 = trace s ++ [FxConnectCall; FxConnectCall]
  ∧ opens r2.1 = opens s ∧ emits r2.1 = emits s
  ∧ sockets r2.1 = sockets s ∧ socket r2.1 = socket s
  ∧ timers r2.1 = timers s
  ∧ connectionState r2.1 = connectionState s
  ∧ roomJoined r2.1 = roomJoined s
  ∧ (roomJoined s = true → joinRoom s = s).
Proof.
  intros Hwf Hc r1 r2.
  assert (E1 : r1 = (settle (PConnect, nextId s) (Resolved VTrue)
       (set_nextId (S (nextId s)) (log FxConnectCall s)), nextId s))
    by (by apply connect_connected).
  assert (F1 : promises s !! (PConnect, nextId s) = None) by (by apply wf_fresh).
  assert (F2 : promises s !! (PConnect, S (nextId s)) = None)
    by (apply wf_fresh; [done|lia]).
  assert (Hc1 : socket_connected r1.1 = true).
  { rewrite E1. unfold settle. simpl. rewrite F1. done. }
  assert (E2 : r2 = (settle (PConnect, nextId r1.1) (Resolved VTrue)
       (set_nextId (S (nextId r1.1)) (log FxConnectCall r1.1)), nextId r1.1))
    by (by apply connect_connected).
  rewrite E2, E1. unfold settle. simpl. rewrite F1. simpl.
  assert (G : <[(PConnect, nextId s):=Resolved VTrue]> (promises s)
               !! (PConnect, S (nextId s)) = None).
  { rewrite lookup_insert_ne; [done|]. intros [=]; lia. }
  rewrite G. simpl.
  split_and!; try done.
  - by rewrite lookup_insert_eq.
  - by rewrite lookup_insert_eq.
  - by rewrite <- app_assoc.
  - unfold opens. simpl. rewrite !filter_app. simpl. by rewrite !app_nil_r.
  - unfold emits. simpl. rewrite !filter_app. simpl. by rewrite !app_nil_r.
  - intros Hj. unfold joinRoom. rewrite Hc, Hj. done.
Qed.

(** ** Sublists *)

Lemma Forall_sublist {A} (P : A → Prop) (l k : list A) :
  l `sublist_of` k → Forall P k → Forall P l.
Proof.
  intros Hs. rewrite !Forall_forall. intros Hk x Hx.
  apply Hk. by eapply elem_of_sublist.
Qed.

Lemma filter_sublist {A} (P : A → Prop) `{!∀ x, Decision (P x)} (l k : list A) :
  l `sublist_of` k → filter P l `sublist_of` filter P k.
Proof.
  induction 1 as [|x l k _ IH|x l k _ IH]; [done| |].
  - rewrite !filter_cons. case_decide; [by apply sublist_skip|done].
  - rewrite filter_cons. case_decide; [by apply sublist_cons|done].
Qed.

(** ** Well-formedness is kept by every primitive *)

Lemma wf_ext (s s' : Client) :
  nextId s' = nextId s → promises s' = promises s → timers s' = timers s →
  resolvers s' = resolvers s → sockets s' = sockets s →
  awaiting s' = awaiting s → wf s → wf s'.
Proof.
  unfold wf, send_outers. intros -> -> -> -> -> ->. done.
Qed.

Lemma wf_log e s : wf s → wf (log e s).
Proof. by apply wf_ext. Qed.

Lemma wf_log_all es s : wf s → wf (log_all es s).
Proof. by apply wf_ext. Qed.

Lemma wf_set_messageQueue v s : wf s → wf (set_messageQueue v s).
Proof. by apply wf_ext. Qed.

Lemma wf_set_roomJoined v s : wf s → wf (set_roomJoined v s).
Proof. by apply wf_ext. Qed.

Lemma wf_set_config v s : wf s → wf (set_config v s).
Proof. by apply wf_ext. Qed.

Lemma wf_set_socket v s : wf s → wf (set_socket v s).
Proof. by apply wf_ext. Qed.

Lemma wf_set_connectionTime v s : wf s → wf (set_connectionTime v s).
Proof. by apply wf_ext. Qed.

Lemma wf_set_connectionStartTime v s : wf s → wf (set_connectionStartTime v s).
Proof. by apply wf_ext. Qed.

Lemma wf_set_messageListeners v s : wf s → wf (set_messageListeners v s).
Proof. by apply wf_ext. Qed.

Lemma wf_set_stateChangeListeners v s : wf s → wf (set_stateChangeListeners v s).
Proof. by apply wf_ext. Qed.

Lemma wf_set_errorListeners v s : wf s → wf (set_errorListeners v s).
Proof. by apply wf_ext. Qed.

Lemma wf_set_connectionState v s : wf s → wf (set_connectionState v s).
Proof. by apply wf_ext. Qed.

Lemma wf_set_trace v s : wf s → wf (set_trace v s).
Proof. by apply wf_ext. Qed.

Lemma wf_set_nextId (s : Client) (n : nat) :
  (nextId s ≤ n)%nat → wf s → wf (set_nextId n s).
Proof.
  intros Hn (H1 & H2 & H3 & H4 & H5 & H6 & H7 & H8). unfold wf, send_outers in *. simpl.
  split_and!; try done.
  - eapply map_Forall_impl; [exact H1|]. simpl. intros; lia.
  - eapply map_Forall_impl; [exact H2|]. simpl. intros ? ? [? ?]; split; lia.
  - eapply Forall_impl; [exact H3|]. simpl. intros ? [? ?]; split; lia.
  - eapply Forall_impl; [exact H5|]. simpl. intros ? [? ?]; split; lia.
  - eapply Forall_impl; [exact H6|]. simpl. intros ? [? ?]; split; lia.
Qed.

Lemma wf_settle (k : PromiseKind * nat) (r : Settled) (s : Client) :
  k.2 < nextId s → wf s → wf (settle k r s).
Proof.
  intros Hk Hwf. unfold settle. destruct (promises s !! k); [done|].
  destruct Hwf as (H1 & H2). unfold wf. simpl. split; [|done].
  by apply map_Forall_insert_2.
Qed.

Lemma wf_setTimeout (t : nat) (a : TimerAction) (s : Client) :
  t < nextId s → timer_ref a < nextId s →
  response_timer_ok (send_outers s) a → wf s → wf (setTimeout t a s).
Proof.
  intros Ht Ha Hr (H1 & H2 & H3 & H4 & H5 & H6 & H7 & H8). unfold wf, send_outers in *. simpl.
  split_and!; try done; by apply map_Forall_insert_2.
Qed.

Lemma wf_clearTimeout (t : nat) (s : Client) : wf s → wf (clearTimeout t s).
Proof.
  intros (H1 & H2 & H3 & H4 & H5 & H6 & H7 & H8). unfold wf, send_outers in *. simpl.
  split_and!; try done; by apply map_Forall_delete.
Qed.

Lemma wf_set_resolvers_sub (rs : list Resolver) (s : Client) :
  rs `sublist_of` resolvers s → wf s → wf (set_resolvers rs s).
Proof.
  intros Hs (H1 & H2 & H3 & H4 & H5 & H6 & H7 & H8). unfold wf, send_outers in *. simpl.
  split_and!; try done.
  - by eapply Forall_sublist.
  - eapply sublist_NoDup; [exact H4|]. by apply fmap_sublist, filter_sublist.
Qed.

Lemma wf_push_resolver (r : Resolver) (s : Client) :
  res_promise r < nextId s → res_timer r < nextId s →
  (is_wait r → res_promise r ∉ res_promise <$> filter is_wait (resolvers s)) →
  wf s → wf (set_resolvers (resolvers s ++ [r]) s).
Proof.
  intros Hp Ht Hn (H1 & H2 & H3 & H4 & H5 & H6 & H7 & H8). unfold wf, send_outers in *. simpl.
  split_and!; try done.
  - apply Forall_app; split; [done|]. by constructor.
  - rewrite filter_app, fmap_app. apply NoDup_app. split; [done|].
    rewrite filter_cons, filter_nil. split.
    + intros x Hx. case_decide; simpl; [|apply not_elem_of_nil].
      rewrite list_elem_of_singleton. intros ->. by apply Hn.
    + case_decide; simpl; [apply NoDup_singleton | apply NoDup_nil_2].
Qed.

Lemma send_outers_app (s : Client) (c : nat) (j : Kont) :
  send_outers (set_awaiting (awaiting s ++ [(c, j)]) s)
  = (send_outers s
     ++ match j with KSendAndGet _ _ o => [o] | _ => [] end).
Proof. unfold send_outers. simpl. rewrite omap_app. simpl. by destruct j. Qed.

Lemma wf_push_awaiting (c : nat) (j : Kont) (s : Client) :
  c < nextId s → kont_ref j < nextId s →
  (∀ m i o, j = KSendAndGet m i o →
     (o ∉ send_outers s)
     ∧ (∀ t p mid, timers s !! t = Some (ResponseTimeout p mid) → p ≠ o)) →
  wf s → wf (set_awaiting (awaiting s ++ [(c, j)]) s).
Proof.
  intros Hc Hj Hn (H1 & H2 & H3 & H4 & H5 & H6 & H7 & H8). unfold wf.
  rewrite send_outers_app. simpl. split_and!; try done.
  - apply Forall_app; split; [done|]. by constructor.
  - destruct j as [| m i o | |]; rewrite ?app_nil_r; try done.
    destruct (Hn m i o eq_refl) as [Ho _].
    apply NoDup_app. split_and!; [done| |apply NoDup_singleton].
    intros x Hx. rewrite list_elem_of_singleton. by intros ->.
  - intros t a Ha. specialize (H8 t a Ha). simpl in *.
    destruct a as [| | p mid |]; simpl in *; try done.
    destruct j as [| m i o | |]; rewrite ?app_nil_r; try done.
    destruct (Hn m i o eq_refl) as [_ Ht].
    rewrite elem_of_app, list_elem_of_singleton. intros [? | ->]; [done|].
    by eapply Ht.
Qed.

Lemma send_outers_filter (P : nat * Kont → Prop) `{!∀ x, Decision (P x)}
    (s : Client) :
  send_outers (set_awaiting (filter P (awaiting s)) s) `sublist_of` send_outers s.
Proof.
  unfold send_outers. simpl. induction (awaiting s) as [|ck l IH]; [done|].
  rewrite filter_cons. case_decide; simpl.
  - destruct (ck.2); simpl; try done. by apply sublist_skip.
  - destruct (ck.2); simpl; try done. by apply sublist_cons.
Qed.

Lemma wf_filter_awaiting (P : nat * Kont → Prop) `{!∀ x, Decision (P x)}
    (s : Client) :
  wf s → wf (set_awaiting (filter P (awaiting s)) s).
Proof.
  intros (H1 & H2 & H3 & H4 & H5 & H6 & H7 & H8). unfold wf.
  pose proof (send_outers_filter P s) as Hsub. simpl.
  split_and!; try done.
  - eapply Forall_sublist; [apply sublist_filter|done].
  - eapply sublist_NoDup; [exact H7|done].
  - intros t a Ha. specialize (H8 t a Ha). simpl in *.
    destruct a; simpl in *; try done.
    intros Hin. apply H8. by eapply elem_of_sublist.
Qed.

Lemma wf_push_socket (sk : Socket) (s : Client) :
  sock_promise sk < nextId s → sock_timer sk < nextId s →
  wf s → wf (set_sockets (sockets s ++ [sk]) s).
Proof.
  intros Hp Ht (H1 & H2 & H3 & H4 & H5 & H6 & H7 & H8). unfold wf, send_outers in *. simpl.
  split_and!; try done. apply Forall_app; split; [done|]. by constructor.
Qed.

Lemma wf_flag_socket (sid : nat) (sk : Socket) (b : bool) (s : Client) :
  sockets s !! sid = Some sk →
  wf s → wf (set_sockets (<[sid := set_sock_connected b sk]> (sockets s)) s).
Proof.
  intros Hs (H1 & H2 & H3 & H4 & H5 & H6 & H7 & H8). unfold wf, send_outers in *. simpl.
  split_and!; try done. apply Forall_insert; [done|].
  rewrite Forall_lookup in H5. by apply (H5 sid sk).
Qed.

(** ** Well-formedness is kept by every method *)

Lemma wf_updateState st s : wf s → wf (updateState st s).
Proof. intros H. unfold updateState. by case_decide. Qed.

Lemma wf_handleError err s : wf s → wf (handleError err s).
Proof. intros H. unfold handleError. by apply (wf_updateState ERROR) in H. Qed.

Lemma wf_emit m s : wf s → wf (emit m s).
Proof. intros H. unfold emit. by destruct (socket s). Qed.

Lemma wf_joinRoom s : wf s → wf (joinRoom s).
Proof.
  intros H. unfold joinRoom. repeat case_match; try done.
  by apply (wf_emit (join_message (config s))) in H.
Qed.

Lemma wf_on_disconnect s : wf s → wf (on_disconnect s).
Proof. intros H. unfold on_disconnect. by apply (wf_updateState DISCONNECTED) in H. Qed.

Lemma wf_send_outers_lt (s : Client) (o : nat) :
  wf s → o ∈ send_outers s → o < nextId s.
Proof.
  intros (_ & _ & _ & _ & _ & H6 & _). unfold send_outers.
  rewrite list_elem_of_omap. intros ([c j] & Hin & Hj).
  rewrite Forall_forall in H6. apply H6 in Hin. simpl in *.
  destruct j; simplify_eq. simpl in *. lia.
Qed.

Lemma wf_timer_ref_lt (s : Client) (t : nat) (a : TimerAction) :
  wf s → timers s !! t = Some a → t < nextId s ∧ timer_ref a < nextId s.
Proof. intros (_ & H2 & _) Ht. by apply H2 in Ht. Qed.

Lemma wf_resolver_lt (s : Client) (r : Resolver) :
  wf s → r ∈ resolvers s → res_promise r < nextId s ∧ res_timer r < nextId s.
Proof.
  intros (_ & _ & H3 & _) Hr. rewrite Forall_forall in H3. by apply H3.
Qed.

Lemma wf_socket_lt (s : Client) (sid : nat) (sk : Socket) :
  wf s → sockets s !! sid = Some sk →
  sock_promise sk < nextId s ∧ sock_timer sk < nextId s.
Proof.
  intros (_ & _ & _ & _ & H5 & _) Hs. rewrite Forall_lookup in H5. by eapply H5.
Qed.

(** What [connect()] leaves alone. *)
Lemma connect_frame now s :
  let s' := (connect now s).1 in
  (connect now s).2 = nextId s
  ∧ nextId s < nextId s'
  ∧ awaiting s' = awaiting s
  ∧ resolvers s' = resolvers s
  ∧ messageQueue s' = messageQueue s
  ∧ config s' = config s
  ∧ roomJoined s' = roomJoined s
  ∧ (∀ t a, timers s' !! t = Some a →
       timers s !! t = Some a ∨ a = ConnectionTimeout (nextId s)).
Proof.
  unfold connect, settle, updateState. simpl.
  repeat (case_match; simpl); simplify_eq; split_and!; try done; try lia;
    try (by intros; left).
  all: intros t a; rewrite lookup_insert;
    destruct (decide (S (nextId s) = t)); intros; simplify_eq;
    [by right | by left].
Qed.

Lemma wf_connect now s : wf s → wf (connect now s).1.
Proof.
  intros H. unfold connect. cbn [new_id].
  assert (H1 : wf (set_nextId (S (nextId (log FxConnectCall s)))
                    (log FxConnectCall s))).
  { apply wf_set_nextId; [simpl; lia|done]. }
  repeat case_match; cbn [fst].
  1-3: apply wf_settle; [simpl; lia|done].
  apply wf_setTimeout; [simpl; lia | simpl; autorewrite with client; simpl; lia
                       | done |].
  apply wf_log, wf_set_socket.
  apply wf_push_socket;
    [simpl; autorewrite with client; simpl; lia
    |simpl; autorewrite with client; simpl; lia|].
  apply wf_set_nextId; [lia|].
  apply wf_updateState.
  apply wf_set_connectionStartTime. exact H1.
Qed.

(** Peels the outermost operation off a [wf] goal. *)
Ltac wf_ids :=
  unfold resolver_key; simpl; autorewrite with client; simpl; try lia.

Ltac wf_peel :=
  lazymatch goal with
  | |- wf (settle _ _ _) => apply wf_settle; [wf_ids|]
  | |- wf (setTimeout _ _ _) => apply wf_setTimeout; [wf_ids | wf_ids | |]
  | |- wf (clearTimeout _ _) => apply wf_clearTimeout
  | |- wf (emit _ _) => apply wf_emit
  | |- wf (joinRoom _) => apply wf_joinRoom
  | |- wf (updateState _ _) => apply wf_updateState
  | |- wf (handleError _ _) => apply wf_handleError
  | |- wf (on_disconnect _) => apply wf_on_disconnect
  | |- wf (set_nextId _ _) => apply wf_set_nextId; [wf_ids|]
  | |- wf (set_resolvers (resolvers ?s ++ [_]) ?s) =>
      apply wf_push_resolver; [wf_ids | wf_ids | |]
  | |- wf (set_awaiting (filter _ (awaiting ?s)) ?s) => apply wf_filter_awaiting
  | |- wf (log _ _) => apply wf_log
  | |- wf (log_all _ _) => apply wf_log_all
  | |- wf (set_messageQueue _ _) => apply wf_set_messageQueue
  | |- wf (set_roomJoined _ _) => apply wf_set_roomJoined
  | |- wf (set_config _ _) => apply wf_set_config
  | |- wf (set_socket _ _) => apply wf_set_socket
  | |- wf (set_connectionTime _ _) => apply wf_set_connectionTime
  | |- wf (set_connectionStartTime _ _) => apply wf_set_connectionStartTime
  | |- wf (set_messageListeners _ _) => apply wf_set_messageListeners
  | |- wf (set_stateChangeListeners _ _) => apply wf_set_stateChangeListeners
  | |- wf (set_errorListeners _ _) => apply wf_set_errorListeners
  end.

Lemma wf_call_resolver r m s :
  wf s → res_promise r < nextId s → wf (call_resolver r m s).
Proof.
  intros H Hr. unfold call_resolver. wf_peel. by wf_peel.
Qed.

Lemma call_resolver_frame r m s :
  nextId (call_resolver r m s) = nextId s
  ∧ resolvers (call_resolver r m s) = resolvers s
  ∧ messageQueue (call_resolver r m s) = messageQueue s
  ∧ awaiting (call_resolver r m s) = awaiting s.
Proof. unfold call_resolver. by autorewrite with client. Qed.

Lemma wf_drain rs s :
  wf s → rs `sublist_of` resolvers s → wf (drain rs s).
Proof.
  revert s. induction rs as [|r rs IH]; intros s H Hs; simpl; [done|].
  destruct (messageQueue s) as [|m q]; [done|].
  assert (Hr : r ∈ resolvers s).
  { eapply elem_of_sublist; [|exact Hs]. by left. }
  apply (wf_resolver_lt _ _ H) in Hr as [Hr _].
  assert (Hs' : rs `sublist_of` resolvers s).
  { etrans; [|exact Hs]. by apply sublist_cons. }
  apply IH.
  - apply wf_call_resolver; [|done]. wf_peel.
    by apply wf_set_resolvers_sub.
  - destruct (call_resolver_frame r m
      (set_messageQueue q (set_resolvers rs s))) as (_ & -> & _). done.
Qed.

Lemma wf_notifyMessageListeners data s :
  wf s → wf (notifyMessageListeners data s).
Proof.
  intros H. unfold notifyMessageListeners. wf_peel.
  case_match; [|done]. by apply wf_drain.
Qed.

Lemma wf_waitForNextMessage timeout s :
  wf s → wf (waitForNextMessage timeout s).1.
Proof.
  intros H. unfold waitForNextMessage. cbn [new_id].
  assert (H1 : wf (set_nextId (S (nextId s)) s)) by (by apply wf_set_nextId; [lia|]).
  change (messageQueue (set_nextId (S (nextId s)) s)) with (messageQueue s).
  destruct (messageQueue s) as [|m q]; cbn [fst new_id].
  - wf_peel; [done|]. wf_peel; [|by wf_peel].
    intros _. rewrite list_elem_of_fmap. intros (r & Hr & Hin).
    apply list_elem_of_filter in Hin as [_ Hin]. simpl in Hin.
    apply (wf_resolver_lt _ _ H) in Hin. simpl in Hr. lia.
  - wf_peel. by wf_peel.
Qed.

Lemma remove_first_sublist f rs : remove_first f rs `sublist_of` rs.
Proof.
  induction rs as [|r rs IH]; simpl; [done|].
  destruct (f r); [by apply sublist_cons | by apply sublist_skip].
Qed.

Lemma wf_wait_timeout_fires p waitTimeout s :
  wf s → p < nextId s → wf (wait_timeout_fires p waitTimeout s).
Proof.
  intros H Hp. unfold wait_timeout_fires. case_match; [|done].
  wf_peel. apply wf_set_resolvers_sub; [apply remove_first_sublist|done].
Qed.

Lemma wf_response_timeout_fires p messageId s :
  wf s → p < nextId s → wf (response_timeout_fires p messageId s).
Proof.
  intros H Hp. unfold response_timeout_fires. wf_peel.
  apply wf_set_resolvers_sub; [apply sublist_filter|done].
Qed.

Lemma wf_sendMessage_rest messageText messageId o s :
  wf s → o < nextId s → wf (sendMessage_rest messageText messageId o s).
Proof.
  intros H Ho. unfold sendMessage_rest.
  repeat case_match; repeat wf_peel; done.
Qed.

Lemma sendMessage_rest_frame messageText messageId o s :
  let s' := sendMessage_rest messageText messageId o s in
  nextId s' = nextId s ∧ awaiting s' = awaiting s ∧ resolvers s' = resolvers s
  ∧ timers s' = timers s ∧ messageQueue s' = messageQueue s.
Proof.
  unfold sendMessage_rest. repeat case_match; by autorewrite with client.
Qed.

Lemma sendAndGet_rest_frame messageText messageId o s :
  let s' := sendAndGet_rest messageText messageId o s in
  (nextId s ≤ nextId s')%nat ∧ awaiting s' = awaiting s
  ∧ messageQueue s' = messageQueue s.
Proof.
  unfold sendAndGet_rest. cbn [new_id].
  repeat case_match; autorewrite with client; simpl;
    autorewrite with client; split_and!; try done; lia.
Qed.

Lemma wf_sendAndGet_rest messageText messageId o s :
  wf s → o < nextId s → o ∉ send_outers s →
  wf (sendAndGet_rest messageText messageId o s).
Proof.
  intros H Ho Hn. unfold sendAndGet_rest. cbn [new_id].
  assert (Hj : wf (joinRoom s)) by (by apply wf_joinRoom).
  assert (E : ∀ s0 : Client,
    wf s0 → o < nextId s0 → send_outers s0 = send_outers s →
    wf (set_resolvers
       (resolvers (setTimeout (nextId s0) (ResponseTimeout o messageId)
                     (set_nextId (S (nextId s0)) s0))
        ++ [{| res_kind := FromSendAndGet; res_promise := o;
               res_timer := nextId s0 |}])
       (setTimeout (nextId s0) (ResponseTimeout o messageId)
          (set_nextId (S (nextId s0)) s0)))).
  { intros s0 H0 Ho0 Hs0. wf_peel; [by intros [=]|].
    wf_peel; [|by wf_peel]. simpl. unfold send_outers in *. simpl.
    by rewrite Hs0. }
  assert (Ej : send_outers (joinRoom s) = send_outers s).
  { unfold send_outers. by autorewrite with client. }
  repeat case_match.
  all: lazymatch goal with
  | |- wf (settle _ _ (set_resolvers (filter _ _) _)) =>
      wf_peel; apply wf_set_resolvers_sub; [apply sublist_filter|];
      wf_peel; apply E; [done | by autorewrite with client | done]
  | |- wf (settle _ _ _) => by wf_peel
  | |- wf (emit _ _) =>
      wf_peel; apply E; [done | by autorewrite with client | done]
  end.
Qed.

Lemma sendAndGet_after_connect_frame messageText messageId o s :
  let s' := sendAndGet_after_connect messageText messageId o s in
  (nextId s ≤ nextId s')%nat ∧ awaiting s' = awaiting s
  ∧ messageQueue s' = messageQueue s.
Proof.
  unfold sendAndGet_after_connect. case_match.
  - by autorewrite with client.
  - apply sendAndGet_rest_frame.
Qed.

Lemma wf_sendAndGet_after_connect messageText messageId o s :
  wf s → o < nextId s → o ∉ send_outers s →
  wf (sendAndGet_after_connect messageText messageId o s).
Proof.
  intros H Ho Hn. unfold sendAndGet_after_connect. case_match.
  - by wf_peel.
  - by apply wf_sendAndGet_rest.
Qed.

Lemma resume_frame j r s :
  (nextId s ≤ nextId (resume j r s))%nat
  ∧ awaiting (resume j r s) = awaiting s
  ∧ messageQueue (resume j r s) = messageQueue s.
Proof.
  destruct j, r; simpl; autorewrite with client; try done.
  - destruct (sendMessage_rest_frame messageText messageId o s) as (-> & -> & _ & _ & ->).
    done.
  - apply sendAndGet_after_connect_frame.
Qed.

Lemma wf_resume j r s : wf s → resumable j s → wf (resume j r s).
Proof.
  intros H [Hj Hn]. destruct j, r; simpl in *; try by wf_peel.
  - by apply wf_sendMessage_rest.
  - apply wf_sendAndGet_after_connect; [done..|]. by eapply Hn.
Qed.

Lemma resumable_mono j s s' :
  (nextId s ≤ nextId s')%nat → awaiting s' = awaiting s →
  resumable j s → resumable j s'.
Proof.
  unfold resumable, send_outers. intros Hn ->. intros [? ?]. split; [lia|done].
Qed.

Lemma wf_resume_all (ks : list (nat * Kont)) r s :
  wf s → Forall (λ ck, resumable ck.2 s) ks →
  wf (foldl (λ s ck, resume ck.2 r s) s ks).
Proof.
  revert s. induction ks as [|ck ks IH]; intros s H Hks; simpl; [done|].
  inversion Hks as [|? ? Hck Hks']; subst.
  destruct (resume_frame ck.2 r s) as (Hn & Ha & _).
  apply IH; [by apply wf_resume|].
  eapply Forall_impl; [exact Hks'|]. intros ck'. by apply resumable_mono.
Qed.

Lemma resume_all_frame (ks : list (nat * Kont)) r s :
  let s' := foldl (λ s ck, resume ck.2 r s) s ks in
  (nextId s ≤ nextId s')%nat ∧ awaiting s' = awaiting s
  ∧ messageQueue s' = messageQueue s.
Proof.
  revert s. induction ks as [|ck ks IH]; intros s; simpl; [done|].
  destruct (resume_frame ck.2 r s) as (Hn & Ha & Hq).
  destruct (IH (resume ck.2 r s)) as (Hn' & Ha' & Hq').
  split_and!; [lia|congruence|congruence].
Qed.

Lemma wf_await_connect c j s :
  wf s → c < nextId s → resumable j s →
  (∀ m i o, j = KSendAndGet m i o →
     ∀ t p mid, timers s !! t = Some (ResponseTimeout p mid) → p ≠ o) →
  wf (await_connect c j s).
Proof.
  intros H Hc [Hj Hn] Ht. unfold await_connect. case_match.
  - by apply wf_resume.
  - apply wf_push_awaiting; [done..| |done].
    intros m i o ->. split; [by eapply Hn | by eapply Ht].
Qed.

Lemma send_outers_resumed (l : list (nat * Kont)) (c : nat) m i o :
  NoDup (omap (λ ck, match ck.2 with KSendAndGet _ _ o => Some o | _ => None end) l) →
  (c, KSendAndGet m i o) ∈ l →
  o ∉ omap (λ ck, match ck.2 with KSendAndGet _ _ o => Some o | _ => None end)
        (filter (λ ck, ck.1 ≠ c) l).
Proof.
  induction l as [|[c' j] l IH]; [by rewrite elem_of_nil|].
  rewrite elem_of_cons, filter_cons. simpl. intros Hnd [Heq|Hin].
  - simplify_eq. simpl in Hnd. apply NoDup_cons in Hnd as [Hno _].
    case_decide; [done|]. intros Hin. apply Hno.
    apply list_elem_of_omap in Hin as (ck & Hck & Hsome).
    apply list_elem_of_omap. exists ck. split; [|done].
    by apply list_elem_of_filter in Hck as [_ ?].
  - assert (Hnd' : NoDup (omap (λ ck, match ck.2 with
                                      | KSendAndGet _ _ o => Some o
                                      | _ => None end) l)).
    { destruct j; simpl in Hnd; try done. by apply NoDup_cons in Hnd as [_ ?]. }
    specialize (IH Hnd' Hin). case_decide; [|done]. simpl.
    destruct j as [| m' i' o' | |]; simpl; try done.
    rewrite not_elem_of_cons. split; [|done]. intros ->.
    simpl in Hnd. apply NoDup_cons in Hnd as [Hno _]. apply Hno.
    apply list_elem_of_omap. by exists (c, KSendAndGet m i o').
Qed.

Lemma wf_settle_connect c r s : wf s → c < nextId s → wf (settle_connect c r s).
Proof.
  intros H Hc. unfold settle_connect.
  destruct (promises s !! (PConnect, c)) eqn:E; [done|].
  apply wf_resume_all.
  - apply (wf_filter_awaiting (λ ck, ck.1 ≠ c) (set_promises _ s)).
    pose proof (wf_settle (PConnect, c) r s Hc H) as H'.
    unfold settle in H'. by rewrite E in H'.
  - apply Forall_forall. intros [c' j] Hin.
    apply list_elem_of_filter in Hin as [Hc' Hin]. simpl in *. subst c'.
    split.
    + destruct H as (_ & _ & _ & _ & _ & H6 & _).
      rewrite Forall_forall in H6. apply H6 in Hin. simpl in *. lia.
    + intros m i o ->. unfold send_outers. simpl.
      apply send_outers_resumed with m i; [|done].
      by destruct H as (_ & _ & _ & _ & _ & _ & H7 & _).
Qed.

Lemma wf_sendMessage messageText messageId now s :
  wf s → wf (sendMessage messageText messageId now s).1.
Proof.
  intros H. unfold sendMessage. cbn [new_id].
  assert (H1 : wf (set_nextId (S (nextId s)) s)) by (apply wf_set_nextId; [lia|done]).
  case_match; simpl.
  - destruct (connect now (set_nextId (S (nextId s)) s)) as [s2 c] eqn:Ec.
    pose proof (connect_frame now (set_nextId (S (nextId s)) s)) as F.
    pose proof (wf_connect now _ H1) as W. rewrite Ec in F, W. simpl in *.
    destruct F as (-> & Hn & Ha & _). apply wf_await_connect; [done|lia| |done].
    split; simpl; [lia|done].
  - apply wf_sendMessage_rest; [done|simpl; lia].
Qed.

Lemma wf_sendMessageAndGetResponse messageText messageId now s :
  wf s → wf (sendMessageAndGetResponse messageText messageId now s).1.
Proof.
  intros H. unfold sendMessageAndGetResponse. cbn [new_id].
  assert (H1 : wf (set_nextId (S (nextId s)) s)) by (apply wf_set_nextId; [lia|done]).
  assert (Hout : ∀ s2 : Client, awaiting s2 = awaiting s → nextId s ∉ send_outers s2).
  { intros s2 E Hin. unfold send_outers in Hin. rewrite E in Hin.
    apply (wf_send_outers_lt s) in Hin; [lia|done]. }
  case_match; simpl.
  - destruct (connect now (set_nextId (S (nextId s)) s)) as [s2 c] eqn:Ec.
    pose proof (connect_frame now (set_nextId (S (nextId s)) s)) as F.
    pose proof (wf_connect now _ H1) as W. rewrite Ec in F, W. simpl in *.
    destruct F as (-> & Hn & Ha & _ & _ & _ & _ & Ht).
    apply wf_await_connect; [done|lia|..].
    + split; simpl; [lia|]. intros m i o [= _ _ <-]. by apply Hout.
    + intros m i o [= _ _ <-] t p mid Hl. apply Ht in Hl as [Hl|?]; [|done].
      apply (wf_timer_ref_lt _ _ _ H) in Hl. simpl in Hl. lia.
  - apply wf_sendAndGet_rest; [done|simpl; lia|]. by apply Hout.
Qed.

Lemma wf_switchAgent_rest newAgentId newRoomId o now s :
  wf s → o < nextId s → wf (switchAgent_rest newAgentId newRoomId o now s).
Proof.
  intros H Ho. unfold switchAgent_rest, switchAgent_connect.
  set (s1 := switchAgent_reset newAgentId newRoomId s).
  assert (H1 : wf s1).
  { unfold s1, switchAgent_reset.
    apply wf_set_resolvers_sub; [apply sublist_nil_l|]. by repeat wf_peel. }
  destruct (connect now s1) as [s2 c] eqn:Ec.
  pose proof (connect_frame now s1) as F.
  pose proof (wf_connect now _ H1) as W. rewrite Ec in F, W. simpl in *.
  destruct F as (-> & Hn & Ha & _).
  apply wf_await_connect; [done|lia| |done].
  split; simpl; [|done]. change (nextId s1) with (nextId s) in Hn. lia.
Qed.

Section Transport.

Variable sync_close : bool.

Lemma wf_disconnect s : wf s → wf (disconnect sync_close s).
Proof.
  intros H. unfold disconnect. repeat case_match; try done.
  wf_peel. by apply (wf_flag_socket _ _ _ (log _ s)).
Qed.

Lemma disconnect_frame s :
  let s' := disconnect sync_close s in
  nextId s' = nextId s ∧ awaiting s' = awaiting s ∧ timers s' = timers s
  ∧ resolvers s' = resolvers s ∧ promises s' = promises s
  ∧ messageQueue s' = messageQueue s ∧ config s' = config s.
Proof.
  unfold disconnect. repeat case_match; by autorewrite with client.
Qed.

Lemma wf_switchAgent newAgentId newRoomId now s :
  wf s → wf (switchAgent sync_close newAgentId newRoomId now s).1.
Proof.
  intros H. unfold switchAgent. cbn [new_id].
  assert (H1 : wf (set_nextId (S (nextId s)) s)) by (apply wf_set_nextId; [lia|done]).
  repeat case_match; simpl.
  - by wf_peel.
  - destruct (disconnect_frame (set_nextId (S (nextId s)) s)) as (Hn & _).
    simpl in Hn. wf_peel; [done|].
    wf_peel; try (rewrite Hn; lia). by apply wf_disconnect.
  - apply wf_switchAgent_rest; [done|simpl; lia].
Qed.

Lemma wf_setConfig newConfigPartial now s :
  wf s → wf (setConfig sync_close newConfigPartial now s).1.
Proof.
  intros H. unfold setConfig. cbn [new_id].
  set (s1 := set_config _ (set_nextId (S (nextId s)) s)).
  assert (H1 : wf s1).
  { unfold s1. wf_peel. apply wf_set_nextId; [lia|done]. }
  set (s2 := if _ && _ then disconnect sync_close s1 else s1).
  assert (H2 : wf s2) by (unfold s2; case_match; [by apply wf_disconnect|done]).
  assert (N2 : nextId s2 = S (nextId s)).
  { unfold s2. case_match; [|done].
    by destruct (disconnect_frame s1) as (-> & _). }
  repeat case_match; simpl.
  - match goal with Hc : connect now s2 = _ |- _ => rename Hc into Ec end.
    pose proof (connect_frame now s2) as F.
    pose proof (wf_connect now _ H2) as W. rewrite Ec in F, W. simpl in F, W.
    destruct F as (-> & Hn & Ha & _).
    apply wf_await_connect; [done|lia| |done]. split; simpl; [lia|done].
  - wf_peel; try (rewrite N2; lia). by wf_peel.
  - wf_peel; try (rewrite N2; lia). done.
Qed.

End Transport.

Lemma wf_on_connect c t now s : wf s → c < nextId s → wf (on_connect c t now s).
Proof.
  intros H Hc. unfold on_connect. apply wf_settle_connect; [|wf_ids].
  by repeat wf_peel.
Qed.

Lemma wf_on_reconnect_failed c s :
  wf s → c < nextId s → wf (on_reconnect_failed c s).
Proof.
  intros H Hc. unfold on_reconnect_failed.
  apply wf_settle_connect; [|wf_ids]. by wf_peel.
Qed.

Lemma wf_connection_timeout_fires c s :
  wf s → c < nextId s → wf (connection_timeout_fires c s).
Proof.
  intros H Hc. unfold connection_timeout_fires. case_match; [|done].
  apply wf_settle_connect; [|wf_ids]. by wf_peel.
Qed.

Lemma wf_socket_event sid ev s : wf s → wf (socket_event sid ev s).
Proof.
  intros H. unfold socket_event. destruct (sockets s !! sid) as [sk|] eqn:E; [|done].
  destruct (wf_socket_lt _ _ _ H E) as [Hp Ht].
  destruct ev; try done.
  - apply wf_on_connect; [|done]. by apply wf_flag_socket.
  - by apply wf_on_reconnect_failed.
  - apply wf_on_disconnect. by apply wf_flag_socket.
  - by apply wf_notifyMessageListeners.
Qed.

Lemma wf_timer_fires t now s : wf s → wf (timer_fires t now s).
Proof.
  intros H. unfold timer_fires. destruct (timers s !! t) as [a|] eqn:E; [|done].
  destruct (wf_timer_ref_lt _ _ _ H E) as [Ht Ha].
  pose proof (wf_clearTimeout t s H) as H'.
  destruct a; simpl in Ha.
  - by apply wf_connection_timeout_fires.
  - by apply wf_wait_timeout_fires.
  - by apply wf_response_timeout_fires.
  - by apply wf_switchAgent_rest.
Qed.

Lemma wf_new_client cfg : wf (new_client cfg).
Proof.
  unfold wf, send_outers. simpl. split_and!; try done; try constructor.
Qed.

(** Every state a session can reach is well-formed. *)
Lemma wf_step sync_close ev s : wf s → wf (step sync_close ev s).
Proof.
  intros H. destruct ev; simpl.
  - by apply wf_connect.
  - by apply wf_disconnect.
  - by apply wf_sendMessage.
  - by apply wf_waitForNextMessage.
  - by apply wf_switchAgent.
  - by apply wf_setConfig.
  - by apply wf_sendMessageAndGetResponse.
  - done.
  - done.
  - done.
  - by apply wf_socket_event.
  - by apply wf_timer_fires.
Qed.

Lemma wf_run sync_close evs s : wf s → wf (run sync_close evs s).
Proof.
  revert s. induction evs as [|ev evs IH]; intros s H; simpl; [done|].
  apply IH. by apply wf_step.
Qed.

(** ** How the stores evolve *)

Lemma evolves_refl Q s : evolves Q s s.
Proof.
  split_and!; try done.
  - intros o e H1 H2. congruence.
  - intros c r H1 H2. congruence.
Qed.

Lemma evolves_trans Q s1 s2 s3 :
  evolves Q s1 s2 → evolves Q s2 s3 → evolves Q s1 s3.
Proof.
  intros (N1 & S1 & T1 & R1 & C1) (N2 & S2 & T2 & R2 & C2). split_and!.
  - lia.
  - eauto.
  - intros t Ht Hn. apply T2; [lia|]. by apply T1.
  - intros o e Hn Hr. destruct (promises s2 !! (PSendAndGet, o)) as [v|] eqn:E.
    + pose proof (S2 _ _ E) as E'. rewrite Hr in E'. simplify_eq.
      destruct (R1 _ _ Hn E) as [c Hc]. exists c. by apply S2.
    + by apply (R2 o e).
  - intros c r Hn Hr. destruct (promises s2 !! (PConnect, c)) as [v|] eqn:E.
    + by eapply C1.
    + destruct (C2 _ _ E Hr) as [?|?]; [left; lia|by right].
Qed.

Lemma evolves_frame Q s s' :
  (nextId s ≤ nextId s')%nat → promises s' = promises s →
  (∀ t : nat, t < nextId s → timers s !! t = None → timers s' !! t = None) →
  evolves Q s s'.
Proof.
  intros Hn Hp Ht. unfold evolves. rewrite Hp. split_and!; try done.
  - intros o e H1 H2. congruence.
  - intros c r H1 H2. congruence.
Qed.

Lemma evolves_settle Q k r s :
  k.1 ≠ PConnect →
  (∀ e, k.1 = PSendAndGet → r = Rejected e →
     ∃ c, promises s !! (PConnect, c) = Some (Rejected e)) →
  evolves Q s (settle k r s).
Proof.
  intros Hk Hr. unfold settle. destruct (promises s !! k) eqn:E;
    [apply evolves_refl|].
  split_and!; simpl; try done.
  - intros k' v Hv. rewrite lookup_insert_ne; [done|congruence].
  - intros o e Hn. rewrite lookup_insert. case_decide; [|congruence].
    intros [= ->]. subst k. destruct (Hr e eq_refl eq_refl) as [c Hc].
    exists c. rewrite lookup_insert_ne; [done|congruence].
  - intros c r' Hn. rewrite lookup_insert_ne; [congruence|].
    intros ->. by apply Hk.
Qed.

Lemma evolves_settle_connect_key Q c r s :
  (nextId s ≤ c)%nat ∨ Q c → evolves Q s (settle (PConnect, c) r s).
Proof.
  intros Hc. unfold settle. destruct (promises s !! (PConnect, c)) eqn:E;
    [apply evolves_refl|].
  split_and!; simpl; try done.
  - intros k' v Hv. rewrite lookup_insert_ne; [done|congruence].
  - intros o e Hn. rewrite lookup_insert_ne; [congruence|done].
  - intros c' r' Hn. rewrite lookup_insert. case_decide; [|congruence].
    by simplify_eq.
Qed.

Lemma evolves_settle_connect_from Q c r s0 s :
  evolves Q s0 s → (nextId s0 ≤ c)%nat ∨ Q c →
  evolves Q s0 (settle (PConnect, c) r s).
Proof.
  intros (N & S & T & R & C) Hc. unfold settle.
  destruct (promises s !! (PConnect, c)) eqn:E; [done|].
  split_and!; simpl; try done.
  - intros k' v Hv. apply S in Hv. rewrite lookup_insert_ne; [done|congruence].
  - intros o e Hn. rewrite !lookup_insert_ne by congruence. intros Hr.
    destruct (R o e Hn Hr) as [c' Hc']. exists c'.
    rewrite lookup_insert_ne; [done|congruence].
  - intros c' r' Hn. rewrite lookup_insert. case_decide; [by simplify_eq|].
    by apply C.
Qed.

Lemma absent_insert (m : gmap nat TimerAction) (t t' : nat) a :
  t ≠ t' → m !! t = None → <[t' := a]> m !! t = None.
Proof. intros. by rewrite lookup_insert_ne. Qed.

Lemma absent_delete (m : gmap nat TimerAction) (t t' : nat) :
  m !! t = None → delete t' m !! t = None.
Proof. intros. rewrite lookup_delete_None. by right. Qed.

(** Closes the goals of [evolves_frame]. *)
Ltac frame_tac :=
  unfold new_id, setTimeout, clearTimeout, log, log_all;
  simpl; autorewrite with client; simpl;
  first
    [ lia
    | reflexivity
    | let t := fresh "t" in
      let Ht := fresh "Ht" in
      let Hn := fresh "Hn" in
      intros t Ht Hn;
      repeat first [ apply absent_delete | apply absent_insert; [lia|] ];
      exact Hn ].

Ltac by_frame := apply evolves_frame; frame_tac.

(** Peels the outermost operation off an [evolves] goal. *)
Ltac ev_via lem := eapply evolves_trans; [|apply lem].

Lemma evolves_emit Q m s : evolves Q s (emit m s).
Proof. by_frame. Qed.

Lemma evolves_joinRoom Q s : evolves Q s (joinRoom s).
Proof. by_frame. Qed.

Lemma evolves_updateState Q st s : evolves Q s (updateState st s).
Proof. by_frame. Qed.

Lemma evolves_handleError Q err s : evolves Q s (handleError err s).
Proof. by_frame. Qed.

Lemma evolves_on_disconnect Q s : evolves Q s (on_disconnect s).
Proof. by_frame. Qed.

Lemma evolves_call_resolver Q r m s : evolves Q s (call_resolver r m s).
Proof.
  unfold call_resolver. ev_via evolves_settle; [by_frame|..].
  - unfold resolver_key. simpl. by destruct (res_kind r).
  - intros e _ [=].
Qed.

Lemma evolves_drain Q rs s : evolves Q s (drain rs s).
Proof.
  revert s. induction rs as [|r rs IH]; intros s; simpl; [apply evolves_refl|].
  destruct (messageQueue s) as [|m q]; [apply evolves_refl|].
  eapply evolves_trans; [|apply IH].
  ev_via evolves_call_resolver. by_frame.
Qed.

Lemma evolves_notifyMessageListeners Q data s :
  evolves Q s (notifyMessageListeners data s).
Proof.
  unfold notifyMessageListeners. case_match; [|by_frame].
  eapply evolves_trans; [|by_frame].
  ev_via evolves_drain. by_frame.
Qed.

Lemma evolves_waitForNextMessage Q timeout s :
  evolves Q s (waitForNextMessage timeout s).1.
Proof.
  unfold waitForNextMessage. cbn [new_id].
  change (messageQueue (set_nextId (S (nextId s)) s)) with (messageQueue s).
  destruct (messageQueue s) as [|m q]; cbn [fst new_id].
  - by_frame.
  - ev_via evolves_settle; [by_frame|done|]. intros e _ [=].
Qed.

Lemma evolves_wait_timeout_fires Q p waitTimeout s :
  evolves Q s (wait_timeout_fires p waitTimeout s).
Proof.
  unfold wait_timeout_fires. case_match; [|apply evolves_refl].
  ev_via evolves_settle; [by_frame|done|]. intros e [=].
Qed.

Lemma evolves_response_timeout_fires Q p messageId s :
  evolves Q s (response_timeout_fires p messageId s).
Proof.
  unfold response_timeout_fires.
  ev_via evolves_settle; [by_frame|done|]. intros e _ [=].
Qed.

Lemma evolves_connect Q now s : evolves Q s (connect now s).1.
Proof.
  unfold connect. cbn [new_id].
  repeat case_match; cbn [fst new_id].
  1-3: apply evolves_settle_connect_from; [by_frame|left; simpl; lia].
  by_frame.
Qed.

Lemma evolves_sendMessage_rest Q messageText messageId o s :
  evolves Q s (sendMessage_rest messageText messageId o s).
Proof.
  unfold sendMessage_rest.
  repeat case_match;
    (ev_via evolves_settle; [|done|by intros e [=]]);
    try apply evolves_refl;
    try (ev_via evolves_emit); try apply evolves_joinRoom;
    apply evolves_refl.
Qed.

Lemma evolves_sendAndGet_rest Q messageText messageId o s :
  evolves Q s (sendAndGet_rest messageText messageId o s).
Proof.
  unfold sendAndGet_rest. cbn [new_id].
  repeat case_match.
  - ev_via evolves_settle; [apply evolves_refl|done|]. intros e _ [=].
  - ev_via evolves_emit. eapply evolves_trans; [apply evolves_joinRoom|]. by_frame.
  - ev_via evolves_settle; [|done|by intros e _ [=]].
    eapply evolves_trans; [apply evolves_joinRoom|]. by_frame.
  - ev_via evolves_emit. by_frame.
  - ev_via evolves_settle; [|done|by intros e _ [=]]. by_frame.
Qed.

Lemma evolves_sendAndGet_after_connect Q messageText messageId o s :
  evolves Q s (sendAndGet_after_connect messageText messageId o s).
Proof.
  unfold sendAndGet_after_connect. case_match.
  - ev_via evolves_settle; [apply evolves_refl|done|]. intros e _ [=].
  - apply evolves_sendAndGet_rest.
Qed.

Lemma backed_evolves Q r s s' : evolves Q s s' → backed r s → backed r s'.
Proof.
  intros (_ & S & _) Hb e He. destruct (Hb e He) as [c Hc]. exists c. by apply S.
Qed.

Lemma evolves_resume Q j r s : backed r s → evolves Q s (resume j r s).
Proof.
  intros Hb. destruct j, r; simpl.
  - apply evolves_sendMessage_rest.
  - apply evolves_settle; [done|]. by intros e' [=].
  - apply evolves_sendAndGet_after_connect.
  - apply evolves_settle; [done|]. intros e' _ [= <-]. by apply Hb.
  - apply evolves_settle; [done|]. by intros e' [=].
  - apply evolves_settle; [done|]. by intros e' [=].
  - apply evolves_settle; [done|]. by intros e' [=].
  - apply evolves_settle; [done|]. by intros e' [=].
Qed.

Lemma evolves_resume_all Q (ks : list (nat * Kont)) r s :
  backed r s → evolves Q s (foldl (λ s ck, resume ck.2 r s) s ks).
Proof.
  revert s. induction ks as [|ck ks IH]; intros s Hb; simpl; [apply evolves_refl|].
  pose proof (evolves_resume Q ck.2 r s Hb) as E.
  eapply evolves_trans; [exact E|]. apply IH. by eapply backed_evolves.
Qed.

Lemma evolves_await_connect Q c j s : evolves Q s (await_connect c j s).
Proof.
  unfold await_connect. destruct (promises s !! (PConnect, c)) as [r|] eqn:E.
  - apply evolves_resume. intros e ->. by exists c.
  - by_frame.
Qed.

Lemma evolves_settle_connect Q c r s :
  (nextId s ≤ c)%nat ∨ Q c → evolves Q s (settle_connect c r s).
Proof.
  intros Hc. unfold settle_connect.
  destruct (promises s !! (PConnect, c)) eqn:E; [apply evolves_refl|].
  eapply evolves_trans; [|apply evolves_resume_all].
  - apply (evolves_trans _ _
             (set_promises (<[(PConnect, c) := r]> (promises s)) s)); [|by_frame].
    pose proof (evolves_settle_connect_key Q c r s Hc) as H.
    unfold settle in H. rewrite E in H. exact H.
  - intros e ->. exists c. simpl. by rewrite lookup_insert_eq.
Qed.

Lemma evolves_connect_then Q now j s s0 :
  evolves Q s0 s →
  evolves Q s0 (await_connect (connect now s).2 j (connect now s).1).
Proof.
  intros E. eapply evolves_trans; [exact E|].
  eapply evolves_trans; [apply evolves_connect|apply evolves_await_connect].
Qed.

Lemma evolves_sendMessage Q messageText messageId now s :
  evolves Q s (sendMessage messageText messageId now s).1.
Proof.
  unfold sendMessage. cbn [new_id]. case_match.
  - destruct (connect now _) as [s2 c] eqn:Ec. cbn [fst].
    change s2 with (s2, c).1. change c with (s2, c).2 at 1. rewrite <- Ec.
    apply evolves_connect_then. by_frame.
  - cbn [fst]. ev_via evolves_sendMessage_rest. by_frame.
Qed.

Lemma evolves_sendMessageAndGetResponse Q messageText messageId now s :
  evolves Q s (sendMessageAndGetResponse messageText messageId now s).1.
Proof.
  unfold sendMessageAndGetResponse. cbn [new_id]. case_match.
  - destruct (connect now _) as [s2 c] eqn:Ec. cbn [fst].
    change s2 with (s2, c).1. change c with (s2, c).2 at 1. rewrite <- Ec.
    apply evolves_connect_then. by_frame.
  - cbn [fst]. ev_via evolves_sendAndGet_rest. by_frame.
Qed.

Lemma evolves_switchAgent_rest Q newAgentId newRoomId o now s :
  evolves Q s (switchAgent_rest newAgentId newRoomId o now s).
Proof.
  unfold switchAgent_rest, switchAgent_connect.
  destruct (connect now _) as [s2 c] eqn:Ec.
  change s2 with (s2, c).1. change c with (s2, c).2 at 1. rewrite <- Ec.
  apply evolves_connect_then. unfold switchAgent_reset. by_frame.
Qed.

Section Transport.

Variable sync_close : bool.

Lemma evolves_disconnect Q s : evolves Q s (disconnect sync_close s).
Proof.
  unfold disconnect. repeat case_match; try apply evolves_refl.
  - ev_via evolves_on_disconnect. by_frame.
  - by_frame.
  - by_frame.
Qed.

Lemma evolves_switchAgent Q newAgentId newRoomId now s :
  evolves Q s (switchAgent sync_close newAgentId newRoomId now s).1.
Proof.
  unfold switchAgent. cbn [new_id]. repeat case_match; cbn [fst].
  - ev_via evolves_settle; [by_frame|done|by intros e [=]].
  - set (s1 := set_nextId _ s).
    destruct (disconnect_frame sync_close s1) as (Hn & _ & Ht & _ & Hp & _).
    apply evolves_frame; simpl; rewrite ?Hn, ?Hp, ?Ht; simpl; [lia|done|].
    intros t Hlt Hnone. by apply absent_insert; [lia|].
  - ev_via evolves_switchAgent_rest. by_frame.
Qed.

Lemma evolves_setConfig Q newConfigPartial now s :
  evolves Q s (setConfig sync_close newConfigPartial now s).1.
Proof.
  unfold setConfig. cbn [new_id].
  set (s1 := set_config _ (set_nextId (S (nextId s)) s)).
  set (s2 := if _ && _ then disconnect sync_close s1 else s1).
  assert (E2 : evolves Q s s2).
  { apply (evolves_trans _ _ s1); [unfold s1; by_frame|].
    unfold s2. case_match; [apply evolves_disconnect|apply evolves_refl]. }
  case_match; [case_match|]; cbn [fst].
  - destruct (connect now s2) as [s3 c] eqn:Ec. cbn [fst].
    change s3 with (s3, c).1. change c with (s3, c).2 at 1. rewrite <- Ec.
    by apply evolves_connect_then.
  - ev_via evolves_settle; [|done|by intros e [=]].
    by ev_via evolves_updateState.
  - by ev_via evolves_settle; [|done|by intros e [=]].
Qed.

End Transport.

Lemma evolves_on_connect Q c t now s :
  (nextId s ≤ c)%nat ∨ Q c → evolves Q s (on_connect c t now s).
Proof.
  intros Hc. unfold on_connect.
  ev_via evolves_settle_connect; [|by autorewrite with client].
  ev_via evolves_joinRoom. ev_via evolves_updateState. by_frame.
Qed.

Lemma evolves_on_reconnect_failed Q c s :
  (nextId s ≤ c)%nat ∨ Q c → evolves Q s (on_reconnect_failed c s).
Proof.
  intros Hc. unfold on_reconnect_failed.
  ev_via evolves_settle_connect; [|by autorewrite with client].
  apply evolves_handleError.
Qed.

Lemma evolves_connection_timeout_fires Q c s :
  (nextId s ≤ c)%nat ∨ Q c → evolves Q s (connection_timeout_fires c s).
Proof.
  intros Hc. unfold connection_timeout_fires. case_match; [|apply evolves_refl].
  ev_via evolves_settle_connect; [|by autorewrite with client].
  apply evolves_handleError.
Qed.

Lemma evolves_socket_event sid ev s :
  evolves (λ c, settles_attempt c s (FromSocket sid ev)) s (socket_event sid ev s).
Proof.
  unfold socket_event. destruct (sockets s !! sid) as [sk|] eqn:E;
    [|apply evolves_refl].
  destruct ev; try apply evolves_refl.
  - ev_via evolves_on_connect; [by_frame|]. right. simpl. by rewrite E.
  - apply evolves_on_reconnect_failed. right. simpl. by rewrite E.
  - ev_via evolves_on_disconnect. by_frame.
  - apply evolves_notifyMessageListeners.
Qed.

Lemma evolves_timer_fires t now s :
  evolves (λ c, settles_attempt c s (TimerFires t now)) s (timer_fires t now s).
Proof.
  unfold timer_fires. destruct (timers s !! t) as [a|] eqn:E;
    [|apply evolves_refl].
  apply (evolves_trans _ _ (clearTimeout t s)); [by_frame|].
  destruct a.
  - apply evolves_connection_timeout_fires. by right.
  - apply evolves_wait_timeout_fires.
  - apply evolves_response_timeout_fires.
  - apply evolves_switchAgent_rest.
Qed.

(** Every turn of the event loop evolves the stores, and the only old
    [connect()] promises it can settle are those of the attempt the event
    belongs to. *)
Lemma evolves_step sync_close ev s :
  evolves (λ c, settles_attempt c s ev) s (step sync_close ev s).
Proof.
  destruct ev; simpl.
  - apply evolves_connect.
  - apply evolves_disconnect.
  - apply evolves_sendMessage.
  - apply evolves_waitForNextMessage.
  - apply evolves_switchAgent.
  - apply evolves_setConfig.
  - apply evolves_sendMessageAndGetResponse.
  - by_frame.
  - by_frame.
  - by_frame.
  - apply evolves_socket_event.
  - apply evolves_timer_fires.
Qed.

Lemma evolves_weaken (Q Q' : nat → Prop) s s' :
  (∀ c, Q c → Q' c) → evolves Q s s' → evolves Q' s s'.
Proof.
  intros HQ (N & S & T & R & C). split_and!; try done.
  intros c r Hn Hr. destruct (C c r Hn Hr); [by left|right; by apply HQ].
Qed.

Lemma evolves_run sync_close evs s :
  evolves (λ _, True) s (run sync_close evs s).
Proof.
  revert s. induction evs as [|ev evs IH]; intros s; simpl; [apply evolves_refl|].
  eapply evolves_trans; [|apply IH].
  eapply evolves_weaken; [|apply evolves_step]. done.
Qed.

(** ** Where waiters come from *)

Lemma grows_refl A B s : grows A B s s.
Proof. split_and!; [done|by left|by left]. Qed.

Lemma grows_trans A B s1 s2 s3 :
  grows A B s1 s2 → grows A B s2 s3 → grows A B s1 s3.
Proof.
  intros (N1 & R1 & O1) (N2 & R2 & O2). split_and!.
  - lia.
  - intros r Hr. destruct (R2 r Hr) as [Hr2|[?|?]].
    + by apply R1.
    + right; left; lia.
    + by right; right.
  - intros o Ho. destruct (O2 o Ho) as [Ho2|?]; [by apply O1|by right].
Qed.

Lemma grows_frame A B s s' :
  (nextId s ≤ nextId s')%nat →
  (∀ r, r ∈ resolvers s' → r ∈ resolvers s) →
  awaiting s' = awaiting s →
  grows A B s s'.
Proof.
  intros N R O. split_and!; [done|by left; apply R|].
  unfold send_outers. rewrite O. by left.
Qed.

Ltac same_tac :=
  unfold new_id, setTimeout, clearTimeout, log, log_all, switchAgent_reset;
  simpl; autorewrite with client; simpl;
  first [ lia | reflexivity | by intros ? ? | by intros ? ?%elem_of_nil ].

Ltac by_same := apply grows_frame; same_tac.

Ltac gr_via lem := eapply grows_trans; [|apply lem].

Lemma grows_settle A B k r s : grows A B s (settle k r s).
Proof. by_same. Qed.

Lemma grows_emit A B m s : grows A B s (emit m s).
Proof. by_same. Qed.

Lemma grows_joinRoom A B s : grows A B s (joinRoom s).
Proof. by_same. Qed.

Lemma grows_updateState A B st s : grows A B s (updateState st s).
Proof. by_same. Qed.

Lemma grows_handleError A B err s : grows A B s (handleError err s).
Proof. by_same. Qed.

Lemma grows_on_disconnect A B s : grows A B s (on_disconnect s).
Proof. by_same. Qed.

Lemma grows_call_resolver A B r m s : grows A B s (call_resolver r m s).
Proof. unfold call_resolver. by_same. Qed.

Lemma grows_drain A B rs s :
  (∀ r, r ∈ rs → r ∈ resolvers s) → grows A B s (drain rs s).
Proof.
  revert s. induction rs as [|r rs IH]; intros s Hs; simpl; [apply grows_refl|].
  destruct (messageQueue s) as [|m q]; [apply grows_refl|].
  eapply grows_trans; [|apply IH].
  - apply grows_frame; unfold call_resolver; simpl; autorewrite with client;
      simpl; [lia| |done].
    intros r' Hr'. apply Hs. by right.
  - unfold call_resolver. by autorewrite with client.
Qed.

Lemma grows_notifyMessageListeners A B data s :
  grows A B s (notifyMessageListeners data s).
Proof.
  unfold notifyMessageListeners. case_match; [|by_same].
  eapply grows_trans; [|by_same].
  eapply grows_trans; [|by apply grows_drain]. by_same.
Qed.

Lemma grows_waitForNextMessage A B timeout s :
  grows A B s (waitForNextMessage timeout s).1.
Proof.
  unfold waitForNextMessage. cbn [new_id].
  change (messageQueue (set_nextId (S (nextId s)) s)) with (messageQueue s).
  destruct (messageQueue s) as [|m q]; cbn [fst new_id].
  - split_and!; simpl; [lia| |by left].
    intros r. rewrite elem_of_app, list_elem_of_singleton.
    intros [?| ->]; [by left|]. right; left. simpl. lia.
  - by_same.
Qed.

Lemma elem_of_remove_first f rs (r : Resolver) :
  r ∈ remove_first f rs → r ∈ rs.
Proof. intros H. eapply elem_of_sublist; [exact H|apply remove_first_sublist]. Qed.

Lemma grows_wait_timeout_fires A B p waitTimeout s :
  grows A B s (wait_timeout_fires p waitTimeout s).
Proof.
  unfold wait_timeout_fires. case_match; [|apply grows_refl].
  apply grows_frame; autorewrite with client; simpl; [lia| |done].
  intros r. apply elem_of_remove_first.
Qed.

Lemma grows_response_timeout_fires A B p messageId s :
  grows A B s (response_timeout_fires p messageId s).
Proof.
  unfold response_timeout_fires.
  apply grows_frame; autorewrite with client; simpl; [lia| |done].
  intros r Hr. by apply list_elem_of_filter in Hr as [_ ?].
Qed.

Lemma grows_connect A B now s : grows A B s (connect now s).1.
Proof.
  destruct (connect_frame now s) as (_ & N & W & R & _).
  apply grows_frame; [lia| by rewrite R |done].
Qed.

Lemma grows_sendMessage_rest A B messageText messageId o s :
  grows A B s (sendMessage_rest messageText messageId o s).
Proof.
  destruct (sendMessage_rest_frame messageText messageId o s)
    as (N & W & R & _).
  apply grows_frame; [lia| by rewrite R |done].
Qed.

Lemma grows_sendAndGet_rest (A B : nat → Prop) messageText messageId o s :
  A o → grows A B s (sendAndGet_rest messageText messageId o s).
Proof.
  intros Ho.
  destruct (sendAndGet_rest_frame messageText messageId o s) as (N & W & _).
  split_and!; [done| |unfold send_outers; rewrite W; by left].
  unfold sendAndGet_rest. cbn [new_id].
  repeat case_match; autorewrite with client; simpl; autorewrite with client;
    intros r; rewrite ?list_elem_of_filter, ?elem_of_app, ?list_elem_of_singleton;
    try (by left);
    intros Hr; try (destruct Hr as [_ Hr]); destruct Hr as [?| ->];
      try (by left); right; right; done.
Qed.

Lemma grows_sendAndGet_after_connect (A B : nat → Prop)
    messageText messageId o s :
  A o → grows A B s (sendAndGet_after_connect messageText messageId o s).
Proof.
  intros Ho. unfold sendAndGet_after_connect. case_match.
  - apply grows_settle.
  - by apply grows_sendAndGet_rest.
Qed.

Lemma grows_resume (A B : nat → Prop) j r s :
  (∀ m i o, j = KSendAndGet m i o → A o) → grows A B s (resume j r s).
Proof.
  intros Hj. destruct j, r; simpl; try apply grows_settle.
  - apply grows_sendMessage_rest.
  - apply grows_sendAndGet_after_connect. by eapply Hj.
Qed.

Lemma grows_resume_all (A B : nat → Prop) (ks : list (nat * Kont)) r s :
  Forall (λ ck, ∀ m i o, ck.2 = KSendAndGet m i o → A o) ks →
  grows A B s (foldl (λ s ck, resume ck.2 r s) s ks).
Proof.
  revert s. induction ks as [|ck ks IH]; intros s Hks; simpl; [apply grows_refl|].
  inversion Hks; subst.
  eapply grows_trans; [by apply grows_resume|]. by apply IH.
Qed.

Lemma grows_await_connect (A B : nat → Prop) c j s :
  (∀ m i o, j = KSendAndGet m i o → A o ∧ B o) →
  grows A B s (await_connect c j s).
Proof.
  intros Hj. unfold await_connect. case_match.
  - apply grows_resume. intros m i o E. by destruct (Hj m i o E).
  - split_and!; simpl; [done|by left|].
    intros o. rewrite send_outers_app, elem_of_app.
    intros [?|Ho]; [by left|]. right.
    destruct j; simpl in Ho; try by apply elem_of_nil in Ho.
    apply list_elem_of_singleton in Ho as ->. by destruct (Hj _ _ _ eq_refl).
Qed.

Lemma grows_settle_connect (A B : nat → Prop) c r s :
  (∀ o, o ∈ send_outers s → A o) → grows A B s (settle_connect c r s).
Proof.
  intros Ho. unfold settle_connect. case_match; [apply grows_refl|].
  eapply grows_trans; [|apply grows_resume_all].
  - split_and!; simpl; [done|by left|].
    intros o Hin. left.
    eapply elem_of_sublist; [exact Hin|].
    apply (send_outers_filter (λ ck, ck.1 ≠ c) (set_promises _ s)).
  - apply Forall_forall. intros [c' j] Hin m i o E. simpl in E. subst j.
    apply list_elem_of_filter in Hin as [_ Hin]. apply Ho.
    unfold send_outers. apply list_elem_of_omap. by exists (c', KSendAndGet m i o).
Qed.

Lemma grows_connect_then (A B : nat → Prop) now j s s0 :
  (∀ m i o, j = KSendAndGet m i o → A o ∧ B o) →
  grows A B s0 s →
  grows A B s0 (await_connect (connect now s).2 j (connect now s).1).
Proof.
  intros Hj E. eapply grows_trans; [exact E|].
  eapply grows_trans; [apply grows_connect|by apply grows_await_connect].
Qed.

Lemma grows_sendMessage A B messageText messageId now s :
  grows A B s (sendMessage messageText messageId now s).1.
Proof.
  unfold sendMessage. cbn [new_id]. case_match.
  - destruct (connect now _) as [s2 c] eqn:Ec. cbn [fst].
    change s2 with (s2, c).1. change c with (s2, c).2 at 1. rewrite <- Ec.
    apply grows_connect_then; [done|]. by_same.
  - cbn [fst]. gr_via grows_sendMessage_rest. by_same.
Qed.

Lemma grows_sendMessageAndGetResponse (A B : nat → Prop)
    messageText messageId now s :
  A (nextId s) → B (nextId s) →
  grows A B s (sendMessageAndGetResponse messageText messageId now s).1.
Proof.
  intros HA HB. unfold sendMessageAndGetResponse. cbn [new_id]. case_match.
  - destruct (connect now _) as [s2 c] eqn:Ec. cbn [fst].
    change s2 with (s2, c).1. change c with (s2, c).2 at 1. rewrite <- Ec.
    apply grows_connect_then; [by intros m i o [= _ _ <-]|]. by_same.
  - cbn [fst]. eapply grows_trans; [|by apply grows_sendAndGet_rest]. by_same.
Qed.

Lemma grows_switchAgent_rest A B newAgentId newRoomId o now s :
  grows A B s (switchAgent_rest newAgentId newRoomId o now s).
Proof.
  unfold switchAgent_rest, switchAgent_connect.
  destruct (connect now _) as [s2 c] eqn:Ec.
  change s2 with (s2, c).1. change c with (s2, c).2 at 1. rewrite <- Ec.
  apply grows_connect_then; [done|]. by_same.
Qed.

Section Transport.

Variable sync_close : bool.

Lemma grows_disconnect A B s : grows A B s (disconnect sync_close s).
Proof.
  destruct (disconnect_frame sync_close s) as (N & W & _ & R & _).
  apply grows_frame; [lia| by rewrite R |done].
Qed.

Lemma grows_switchAgent A B newAgentId newRoomId now s :
  grows A B s (switchAgent sync_close newAgentId newRoomId now s).1.
Proof.
  unfold switchAgent. cbn [new_id]. repeat case_match; cbn [fst].
  - by_same.
  - set (s1 := set_nextId _ s).
    destruct (disconnect_frame sync_close s1) as (N & W & _ & R & _).
    apply grows_frame; simpl; rewrite ?N, ?R, ?W; simpl; [lia|done|done].
  - gr_via grows_switchAgent_rest. by_same.
Qed.

Lemma grows_setConfig A B newConfigPartial now s :
  grows A B s (setConfig sync_close newConfigPartial now s).1.
Proof.
  unfold setConfig. cbn [new_id].
  set (s1 := set_config _ (set_nextId (S (nextId s)) s)).
  set (s2 := if _ && _ then disconnect sync_close s1 else s1).
  assert (E2 : grows A B s s2).
  { apply (grows_trans _ _ _ s1); [unfold s1; by_same|].
    unfold s2. case_match; [apply grows_disconnect|apply grows_refl]. }
  case_match; [case_match|]; cbn [fst].
  - destruct (connect now s2) as [s3 c] eqn:Ec. cbn [fst].
    change s3 with (s3, c).1. change c with (s3, c).2 at 1. rewrite <- Ec.
    by apply grows_connect_then.
  - gr_via grows_settle. by gr_via grows_updateState.
  - by gr_via grows_settle.
Qed.

End Transport.

Lemma grows_on_connect (A B : nat → Prop) c t now s :
  (∀ o, o ∈ send_outers s → A o) → grows A B s (on_connect c t now s).
Proof.
  intros Ho. unfold on_connect.
  eapply grows_trans; [|apply grows_settle_connect].
  - gr_via grows_joinRoom. gr_via grows_updateState. by_same.
  - unfold send_outers in *. by autorewrite with client.
Qed.

Lemma grows_on_reconnect_failed (A B : nat → Prop) c s :
  (∀ o, o ∈ send_outers s → A o) → grows A B s (on_reconnect_failed c s).
Proof.
  intros Ho. unfold on_reconnect_failed.
  eapply grows_trans; [|apply grows_settle_connect].
  - apply grows_handleError.
  - unfold send_outers in *. by autorewrite with client.
Qed.

Lemma grows_connection_timeout_fires (A B : nat → Prop) c s :
  (∀ o, o ∈ send_outers s → A o) → grows A B s (connection_timeout_fires c s).
Proof.
  intros Ho. unfold connection_timeout_fires. case_match; [|apply grows_refl].
  eapply grows_trans; [|apply grows_settle_connect].
  - apply grows_handleError.
  - unfold send_outers in *. by autorewrite with client.
Qed.

Lemma grows_socket_event (A B : nat → Prop) sid ev s :
  (∀ o, o ∈ send_outers s → A o) → grows A B s (socket_event sid ev s).
Proof.
  intros Ho. unfold socket_event. destruct (sockets s !! sid) as [sk|] eqn:E;
    [|apply grows_refl].
  destruct ev; try apply grows_refl.
  - eapply grows_trans; [|by apply grows_on_connect]. by_same.
  - by apply grows_on_reconnect_failed.
  - gr_via grows_on_disconnect. by_same.
  - apply grows_notifyMessageListeners.
Qed.

Lemma grows_timer_fires (A B : nat → Prop) t now s :
  (∀ o, o ∈ send_outers s → A o) → grows A B s (timer_fires t now s).
Proof.
  intros Ho. unfold timer_fires. destruct (timers s !! t) as [a|] eqn:E;
    [|apply grows_refl].
  apply (grows_trans _ _ _ (clearTimeout t s)); [by_same|].
  destruct a.
  - by apply grows_connection_timeout_fires.
  - apply grows_wait_timeout_fires.
  - apply grows_response_timeout_fires.
  - apply grows_switchAgent_rest.
Qed.

(** In one turn of the event loop the waiter set gains only closures of
    new promises and of the calls that were suspended. *)
Lemma grows_step sync_close ev s :
  grows (λ o, o ∈ send_outers s ∨ (nextId s ≤ o)%nat) (λ o, (nextId s ≤ o)%nat)
    s (step sync_close ev s).
Proof.
  destruct ev; simpl.
  - apply grows_connect.
  - apply grows_disconnect.
  - apply grows_sendMessage.
  - apply grows_waitForNextMessage.
  - apply grows_switchAgent.
  - apply grows_setConfig.
  - apply grows_sendMessageAndGetResponse; [by right|done].
  - by_same.
  - by_same.
  - by_same.
  - apply grows_socket_event. by left.
  - apply grows_timer_fires. by left.
Qed.

(** ** FIFO correlation *)

Lemma wf_apply_op op s : wf s → wf (apply_op op s).
Proof.
  destruct op; simpl; [apply wf_waitForNextMessage|apply wf_notifyMessageListeners].
Qed.

Lemma evolves_run_ops Q ops s : evolves Q s (run_ops ops s).
Proof.
  revert s. induction ops as [|op ops IH]; intros s; simpl; [apply evolves_refl|].
  eapply evolves_trans; [|apply IH].
  destruct op; simpl;
    [apply evolves_waitForNextMessage|apply evolves_notifyMessageListeners].
Qed.

Lemma run_ops_stable ops s k v :
  promises s !! k = Some v → promises (run_ops ops s) !! k = Some v.
Proof.
  intros H. destruct (evolves_run_ops (λ _, True) ops s) as (_ & S & _). by apply S.
Qed.

Lemma drain_empty_queue rs s : messageQueue s = [] → drain rs s = s.
Proof. intros H. destruct rs; simpl; [done|]. by rewrite H. Qed.

Lemma balanced_wait timeout s :
  balanced s →
  let s1 := (waitForNextMessage timeout s).1 in
  let p := (waitForNextMessage timeout s).2 in
  balanced s1
  ∧ match messageQueue s with
    | m :: q =>
        resolvers s1 = [] ∧ messageQueue s1 = q
        ∧ promises s1 !! (PWait, p) = Some (Resolved (VMessage m))
    | [] =>
        messageQueue s1 = []
        ∧ res_promise <$> resolvers s1 = (res_promise <$> resolvers s) ++ [p]
    end.
Proof.
  intros (Hwf & Hb & Hp).
  pose proof (wf_waitForNextMessage timeout s Hwf) as Hwf1.
  pose proof (wf_fresh s PWait (nextId s) Hwf (le_n _)) as Hf.
  unfold balanced. revert Hwf1. unfold waitForNextMessage. cbn [new_id].
  change (messageQueue (set_nextId (S (nextId s)) s)) with (messageQueue s).
  destruct (messageQueue s) as [|m q] eqn:Eq; cbn [fst snd new_id]; intros Hwf1.
  - split_and!; simpl; try done; try (by left).
    + apply Forall_app. split; [done|]. by repeat constructor.
    + by rewrite fmap_app.
  - destruct Hb as [?|Hr]; [done|].
    unfold settle. simpl. rewrite Hf. simpl. rewrite Hr.
    split_and!; simpl; try done; try (by right); try (by constructor);
      try (by rewrite lookup_insert_eq).
    unfold settle in Hwf1. simpl in Hwf1. by rewrite Hf in Hwf1.
Qed.

Lemma balanced_reply data s :
  balanced s →
  let s1 := notifyMessageListeners data s in
  balanced s1
  ∧ if is_valid_reply s data then
      match resolvers s with
      | r :: rs =>
          resolvers s1 = rs ∧ messageQueue s1 = []
          ∧ promises s1 !! (PWait, res_promise r) = Some (Resolved (VMessage data))
      | [] => resolvers s1 = [] ∧ messageQueue s1 = messageQueue s ++ [data]
      end
    else resolvers s1 = resolvers s ∧ messageQueue s1 = messageQueue s.
Proof.
  intros (Hwf & Hb & Hp).
  pose proof (wf_notifyMessageListeners data s Hwf) as Hwf1.
  unfold balanced. revert Hwf1. unfold notifyMessageListeners.
  destruct (is_valid_reply s data); [|by intros; split_and!].
  simpl. destruct (resolvers s) as [|r rs] eqn:Er; simpl.
  - intros Hwf1. split_and!; try done; try (by right).
    rewrite Er. constructor.
  - destruct Hb as [Hq|?]; [|done]. rewrite Hq. simpl.
    rewrite drain_empty_queue by (unfold call_resolver; by autorewrite with client).
    inversion Hp as [|? ? [Hk Hn] Hrs]; subst.
    unfold call_resolver, resolver_key, settle. rewrite Hk. simpl. rewrite Hn. simpl.
    intros Hwf1. split_and!; try done; [by left| |by rewrite lookup_insert_eq].
    apply Forall_forall. intros r' Hr'.
    rewrite Forall_forall in Hrs. destruct (Hrs r' Hr') as [Hk' Hn'].
    split; [done|]. rewrite lookup_insert_ne; [done|].
    intros [= E]. destruct Hwf as (_ & _ & _ & Hnd & _).
    rewrite Er in Hnd. rewrite filter_cons in Hnd.
    destruct (decide (is_wait r)) as [_|Hw]; [|by destruct Hw].
    simpl in Hnd. apply NoDup_cons in Hnd as [Hnot _]. apply Hnot.
    rewrite E. apply list_elem_of_fmap_2. apply list_elem_of_filter. by split.
Qed.

Lemma fifo_general ops s :
  balanced s →
  ∀ i p,
    ((res_promise <$> resolvers s) ++ waiters_of ops s) !! i = Some p →
    promises (run_ops ops s) !! (PWait, p)
    = (λ m, Resolved (VMessage m)) <$> ((messageQueue s ++ replies_of ops s) !! i).
Proof.
  revert s. induction ops as [|op ops IH]; intros s Hbal i p Hi.
  - simpl in *. rewrite !app_nil_r in *. destruct Hbal as (_ & [Hq|Hr] & Hp).
    + rewrite Hq. simpl. rewrite Forall_forall in Hp.
      apply list_elem_of_lookup_2, list_elem_of_fmap in Hi as (r & -> & Hr).
      by destruct (Hp r Hr).
    + by rewrite Hr in Hi.
  - destruct op as [timeout|data].
    + destruct (balanced_wait timeout s Hbal) as [Hbal1 Hcase].
      specialize (IH _ Hbal1). cbn [run_ops foldl waiters_of replies_of apply_op] in *.
      change (foldl _ ?x ops) with (run_ops ops x) in *.
      destruct (messageQueue s) as [|m q] eqn:Eq.
      * destruct Hcase as [Hq1 Hr1]. rewrite Hq1, Hr1 in IH.
        rewrite <- app_assoc in IH. simpl in *. by apply IH.
      * destruct Hcase as (Hr1 & Hq1 & Hp1).
        destruct Hbal as (_ & [?|Hr] & _); [congruence|].
        rewrite Hr in Hi. rewrite Hr1, Hq1 in IH. simpl in *.
        destruct i as [|i]; simpl in *.
        -- injection Hi as <-. by apply run_ops_stable.
        -- by apply IH.
    + destruct (balanced_reply data s Hbal) as [Hbal1 Hcase].
      specialize (IH _ Hbal1). cbn [run_ops foldl waiters_of replies_of apply_op] in *.
      change (foldl _ ?x ops) with (run_ops ops x) in *.
      destruct (is_valid_reply s data).
      * destruct (resolvers s) as [|r rs] eqn:Er.
        -- destruct Hcase as [Hr1 Hq1]. rewrite Hr1, Hq1 in IH.
           rewrite <- app_assoc in IH. simpl in *. by apply IH.
        -- destruct Hcase as (Hr1 & Hq1 & Hp1).
           destruct Hbal as (_ & [Hq|?] & _); [|congruence].
           rewrite Hq. rewrite Hr1, Hq1 in IH. simpl in *.
           destruct i as [|i]; simpl in *.
           ++ injection Hi as <-. by apply run_ops_stable.
           ++ by apply IH.
      * destruct Hcase as [Hr1 Hq1]. rewrite Hr1, Hq1 in IH. simpl in *.
        by apply IH.
Qed.

(** C1 (FIFO correlation).  Take any schedule that interleaves
    [waitForNextMessage] calls with broadcasts, started when nothing is
    queued and nobody waits.  The i-th call's promise is resolved with the
    i-th valid reply of the schedule; it is still pending when fewer than
    i valid replies arrived. *)
Theorem fifo_correlation (ops : list Op) (s : Client) :
  wf s → messageQueue s = [] → resolvers s = [] →
  ∀ (i : nat) (p : nat),
    waiters_of ops s !! i = Some p →
    promises (run_ops ops s) !! (PWait, p)
    = (λ m, Resolved (VMessage m)) <$> (replies_of ops s !! i).
Proof.
  intros Hwf Hq Hr i p Hi.
  pose proof (fifo_general ops s) as H.
  rewrite Hq, Hr in H. simpl in H. apply H; [|done].
  split_and!; [done|by left|]. rewrite Hr. constructor.
Qed.

(** ** Timeout cleanup *)

Lemma is_resolver_true kd p r :
  is_resolver kd p r = true ↔ res_kind r = kd ∧ res_promise r = p.
Proof.
  unfold is_resolver. by rewrite andb_true_iff, !bool_decide_eq_true.
Qed.

Lemma retired_step sync_close ev kd p s :
  retired kd p s → retired kd p (step sync_close ev s).
Proof.
  intros (Hp & Hr & Ho). destruct (grows_step sync_close ev s) as (N & R & O).
  split_and!.
  - lia.
  - unfold in_waiter_set. rewrite Exists_exists. intros (r & Hin & Hm).
    apply is_resolver_true in Hm as [Hk Hq].
    destruct (R r Hin) as [Hold|[Hnew|[Hs [Hout|Hnew]]]].
    + apply Hr. apply Exists_exists. exists r. split; [done|].
      by apply is_resolver_true.
    + lia.
    + rewrite Hq in Hout. apply Ho; [congruence|done].
    + lia.
  - intros Hk Hin. destruct (O p Hin) as [?|?]; [by apply Ho|lia].
Qed.

Lemma retired_run sync_close evs kd p s :
  retired kd p s → retired kd p (run sync_close evs s).
Proof.
  revert s. induction evs as [|ev evs IH]; intros s H; simpl; [done|].
  apply IH. by apply retired_step.
Qed.

Lemma remove_first_absent p rs :
  NoDup (res_promise <$> filter is_wait rs) →
  ¬ Exists (λ r, is_resolver FromWait p r = true)
      (remove_first (is_resolver FromWait p) rs).
Proof.
  induction rs as [|r rs IH]; simpl; intros Hnd.
  - intros H. by apply Exists_nil in H.
  - rewrite filter_cons in Hnd.
    destruct (is_resolver FromWait p r) eqn:E.
    + apply is_resolver_true in E as [Hk Hq].
      destruct (decide (is_wait r)) as [_|Hw]; [|by destruct Hw].
      simpl in Hnd. apply NoDup_cons in Hnd as [Hnot _].
      rewrite Exists_exists. intros (r' & Hin & Hm).
      apply is_resolver_true in Hm as [Hk' Hq']. apply Hnot.
      rewrite Hq, <- Hq'. apply list_elem_of_fmap_2, list_elem_of_filter.
      by split.
    + rewrite Exists_cons. intros [Hm|Hm]; [congruence|].
      apply IH; [|done]. destruct (decide (is_wait r)); [|done].
      simpl in Hnd. by apply NoDup_cons in Hnd as [_ ?].
Qed.

Lemma timer_fires_retires t now a kd p s :
  wf s → timers s !! t = Some a → waiter_timer a kd p →
  retired kd p (timer_fires t now s).
Proof.
  intros Hwf Ht Ha. unfold timer_fires. rewrite Ht.
  destruct (wf_timer_ref_lt _ _ _ Hwf Ht) as [_ Hlt].
  pose proof Hwf as (_ & _ & _ & Hnd & _ & _ & _ & H8).
  specialize (H8 t a Ht). simpl in H8.
  destruct a as [| p' ms | p' mid |]; simpl in Ha, Hlt, H8; try done;
    destruct Ha as [-> ->].
  - unfold wait_timeout_fires, retired, in_waiter_set.
    destruct (existsb _ _) eqn:Ex; autorewrite with client; simpl.
    + split_and!; [done| |done]. by apply remove_first_absent.
    + split_and!; [done| |done]. rewrite Exists_exists. intros (r & Hin & Hm).
      simpl in Ex.
      assert (existsb (is_resolver FromWait p) (resolvers s) = true); [|congruence].
      apply existsb_exists. exists r. split; [|done]. by apply list_elem_of_In.
  - unfold response_timeout_fires, retired, in_waiter_set, send_outers.
    autorewrite with client. simpl. split_and!; [done| |done].
    rewrite Exists_exists. intros (r & Hin & Hm).
    apply list_elem_of_filter in Hin as [? _]. congruence.
Qed.

Lemma drain_timers_absent rs s (t : nat) :
  timers s !! t = None → timers (drain rs s) !! t = None.
Proof.
  revert s. induction rs as [|r rs IH]; intros s H; simpl; [done|].
  destruct (messageQueue s); [done|]. apply IH.
  unfold call_resolver. autorewrite with client. simpl. by apply absent_delete.
Qed.

Lemma drain_resolvers rs s :
  resolvers s = rs → resolvers (drain rs s) `sublist_of` rs.
Proof.
  revert s. induction rs as [|r rs IH]; intros s H; simpl; [by rewrite H|].
  destruct (messageQueue s); [by rewrite H|].
  apply sublist_cons. apply IH. unfold call_resolver. by autorewrite with client.
Qed.

(** A closure that the drain loop took out of the waiter set was called:
    its timer is cleared and its promise is settled. *)
Lemma drain_clears rs s r :
  resolvers s = rs → r ∈ rs → r ∉ resolvers (drain rs s) →
  timers (drain rs s) !! res_timer r = None
  ∧ is_Some (promises (drain rs s) !! resolver_key r).
Proof.
  revert s. induction rs as [|r0 rs IH]; intros s Hs Hin Hout.
  - by apply elem_of_nil in Hin.
  - simpl in *. destruct (messageQueue s) as [|m q] eqn:Eq.
    + rewrite Hs in Hout. done.
    + set (s1 := call_resolver r0 m (set_messageQueue q (set_resolvers rs s))) in *.
      assert (Hs1 : resolvers s1 = rs)
        by (unfold s1, call_resolver; by autorewrite with client).
      destruct (decide (r ∈ rs)) as [Hr|Hr]; [by apply IH|].
      apply elem_of_cons in Hin as [->|?]; [|done]. split.
      * apply drain_timers_absent. unfold s1, call_resolver.
        autorewrite with client. simpl. by rewrite lookup_delete_eq.
      * assert (Hsome : is_Some (promises s1 !! resolver_key r0)).
        { unfold s1, call_resolver, settle. simpl.
          destruct (promises s !! resolver_key r0) eqn:E; simpl;
            [by rewrite E|by rewrite lookup_insert_eq]. }
        destruct Hsome as [v Hv]. exists v.
        destruct (evolves_drain (λ _, True) rs s1) as (_ & S & _). by apply S.
Qed.

Lemma run_timer_absent sync_close evs s (t : nat) :
  t < nextId s → timers s !! t = None →
  timers (run sync_close evs s) !! t = None.
Proof.
  intros Hlt Hn. destruct (evolves_run sync_close evs s) as (_ & _ & T & _).
  by apply T.
Qed.

(** C5 (timeout cleanup).  When the timer of a waiter comes due, the
    waiter is out of the waiter set, it stays out whatever happens next,
    and what its promise was settled with never changes, also not by a
    valid reply that arrives later.  Conversely, a waiter that a reply
    takes out of the waiter set has its promise settled and its timer
    cleared: the timer stays cleared, and its coming due changes
    nothing. *)
Theorem timeout_cleanup (sync_close : bool) :
  (∀ (s : Client) (t : nat) (now : Z) (a : TimerAction)
     (kd : ResolverKind) (p : nat) (evs : list Event)
     (data : AgentResponseMessage),
     wf s → timers s !! t = Some a → waiter_timer a kd p →
     let s1 := step sync_close (TimerFires t now) s in
     let s2 := run sync_close evs s1 in
     let s3 := notifyMessageListeners data s2 in
     ¬ in_waiter_set kd p s1
     ∧ ¬ in_waiter_set kd p s2
     ∧ ¬ in_waiter_set kd p s3
     ∧ ∀ v, promises s1 !! waiter_key kd p = Some v →
            promises s3 !! waiter_key kd p = Some v)
  ∧ (∀ (s : Client) (data : AgentResponseMessage) (r : Resolver)
       (evs : list Event) (now : Z),
       wf s → r ∈ resolvers s →
       let s1 := notifyMessageListeners data s in
       let s2 := run sync_close evs s1 in
       r ∉ resolvers s1 →
       is_Some (promises s1 !! resolver_key r)
       ∧ timers s1 !! res_timer r = None
       ∧ timers s2 !! res_timer r = None
       ∧ step sync_close (TimerFires (res_timer r) now) s2 = s2).
Proof.
  split.
  - intros s t now a kd p evs data Hwf Ht Ha s1 s2 s3.
    assert (R1 : retired kd p s1) by (by eapply timer_fires_retires).
    assert (R2 : retired kd p s2) by (by apply retired_run).
    assert (R3 : retired kd p s3).
    { destruct R2 as (Hp & Hr & Ho).
      destruct (grows_notifyMessageListeners (λ _, False) (λ _, False) data s2)
        as (N & R & O).
      split_and!; [unfold s3; lia| |].
      - unfold in_waiter_set. rewrite Exists_exists. intros (r & Hin & Hm).
        destruct (R r Hin) as [Hold|[Hnew|[_ []]]].
        + apply Hr. apply Exists_exists. by exists r.
        + apply is_resolver_true in Hm as [_ Hq]. lia.
      - intros Hk Hin. destruct (O p Hin) as [?|[]]. by apply Ho. }
    split_and!; [apply R1|apply R2|apply R3|].
    intros v Hv.
    destruct (evolves_notifyMessageListeners (λ _, True) data s2) as (_ & S3 & _).
    destruct (evolves_run sync_close evs s1) as (_ & S2 & _).
    apply S3, S2, Hv.
  - intros s data r evs now Hwf Hin s1 s2 Hout.
    assert (Hlt : res_timer r < nextId s) by (by apply (wf_resolver_lt s r)).
    assert (Hc : is_Some (promises s1 !! resolver_key r)
                 ∧ timers s1 !! res_timer r = None).
    { unfold s1, notifyMessageListeners in *.
      destruct (is_valid_reply s data); [|done]. simpl in *.
      by apply and_comm, (drain_clears (resolvers s)
                  (set_messageQueue (messageQueue s ++ [data]) s)). }
    destruct Hc as [Hsome Hnone].
    assert (Hn2 : timers s2 !! res_timer r = None).
    { apply run_timer_absent; [|done].
      destruct (evolves_notifyMessageListeners (λ _, True) data s) as (N & _).
      fold s1 in N. lia. }
    split_and!; try done. simpl. unfold timer_fires. by rewrite Hn2.
Qed.

(** ** Timeout surfacing *)

(** X1 (what a timeout does).  When the response timer of a pending
    [sendMessageAndGetResponse] call comes due, the call is resolved, not
    rejected, with the error-shaped result: [status] is ['error'], the
    [error] field holds the text [Response timeout after <n>ms for message
    ID <id>] and there is no [text].  When the timer of a pending
    [waitForNextMessage] call whose closure is still in the waiter set
    comes due, the call is rejected with the text [Timeout waiting for a
    VALID TEXTUAL response from agent <agent> after <n>ms].  Whatever the
    event, a [sendMessageAndGetResponse] call is rejected only with the
    error of a rejected [connect()]. *)
Theorem timeout_surfacing (sync_close : bool) :
  (∀ (s : Client) (t : nat) (now : Z) (p : nat) (messageId : string),
     timers s !! t = Some (ResponseTimeout p messageId) →
     promises s !! (PSendAndGet, p) = None →
     let s1 := step sync_close (TimerFires t now) s in
     let errorMsg :=
       ("Response timeout after " ++ dec (responseTimeout (config s))
        ++ "ms for message ID " ++ messageId)%string in
     ∃ m, promises s1 !! (PSendAndGet, p) = Some (Resolved (VMessage m))
          ∧ m = error_result errorMsg messageId
          ∧ msg_error m = Some errorMsg ∧ msg_status m = Some "error"
          ∧ msg_text m = None
          ∧ msg_payload m
            = Some {| payload_error := errorMsg; payload_requestId := messageId |})
  ∧ (∀ (s : Client) (t : nat) (now : Z) (p : nat) (waitTimeout : N),
       timers s !! t = Some (WaitTimeout p waitTimeout) →
       in_waiter_set FromWait p s →
       promises s !! (PWait, p) = None →
       promises (step sync_close (TimerFires t now) s) !! (PWait, p)
       = Some (Rejected
                 ("Timeout waiting for a VALID TEXTUAL response from agent "
                  ++ agentId (config s) ++ " after " ++ dec waitTimeout
                  ++ "ms")%string))
  ∧ (∀ (ev : Event) (s : Client) (o : nat) (e : string),
       promises s !! (PSendAndGet, o) = None →
       promises (step sync_close ev s) !! (PSendAndGet, o) = Some (Rejected e) →
       ∃ c, promises (step sync_close ev s) !! (PConnect, c) = Some (Rejected e)).
Proof.
  split_and!.
  - intros s t now p messageId Ht Hp. simpl. unfold timer_fires. rewrite Ht.
    unfold response_timeout_fires, settle. simpl. rewrite Hp. simpl.
    eexists. rewrite lookup_insert_eq. by split_and!.
  - intros s t now p waitTimeout Ht Hin Hp. simpl. unfold timer_fires.
    rewrite Ht. unfold wait_timeout_fires. simpl.
    assert (Hex : existsb (is_resolver FromWait p) (resolvers s) = true).
    { apply existsb_exists. apply Exists_exists in Hin as (r & Hr & Hm).
      exists r. split; [by apply list_elem_of_In|done]. }
    rewrite Hex. unfold settle. simpl. rewrite Hp. simpl.
    by rewrite lookup_insert_eq.
  - intros ev s o e Hn Hr.
    destruct (evolves_step sync_close ev s) as (_ & _ & _ & R & _).
    by apply (R o e).
Qed.

(** ** The connect attempt *)

(** C9.  A ['connect_error'] event leaves the client as it is: the
    pending [connect()] promise stays pending and the connection state
    stays what it was.  And whatever event settles the pending promise of
    a connect attempt, it is the ['connect'] or the ['reconnect_failed']
    event of the attempt's socket or the attempt's connection timer. *)
Theorem connect_error_is_inert (sync_close : bool) :
  (∀ (sid : nat) (s : Client),
     step sync_close (FromSocket sid OnConnectError) s = s)
  ∧ (∀ (ev : Event) (s : Client) (sid : nat) (sk : Socket) (r : Settled),
       wf s → sockets s !! sid = Some sk →
       promises s !! (PConnect, sock_promise sk) = None →
       promises (step sync_close ev s) !! (PConnect, sock_promise sk) = Some r →
       settles_attempt (sock_promise sk) s ev).
Proof.
  split.
  - intros sid s. simpl. unfold socket_event. by destruct (sockets s !! sid).
  - intros ev s sid sk r Hwf Hs Hn Hr.
    destruct (evolves_step sync_close ev s) as (_ & _ & _ & _ & C).
    destruct (C _ _ Hn Hr) as [Hfresh|?]; [|done].
    apply (wf_socket_lt _ _ _ Hwf) in Hs as [? _]. lia.
Qed.

(** ** [sendMessageAndGetResponse] and the queue *)


(** ** Counting [connect()] calls *)

Lemma connect_calls_log_all es s :
  Forall (λ e, e ≠ FxConnectCall) es →
  connect_calls (log_all es s) = connect_calls s.
Proof.
  intros H. unfold connect_calls. simpl. rewrite filter_app, length_app.
  assert (E : filter (λ e, e = FxConnectCall) es = []).
  { induction H as [|e es He _ IH]; [done|].
    rewrite filter_cons. by destruct (decide (e = FxConnectCall)). }
  rewrite E. simpl. lia.
Qed.

Lemma connect_calls_updateState st s :
  connect_calls (updateState st s) = connect_calls s.
Proof.
  unfold updateState. case_decide; [done|].
  apply (connect_calls_log_all _ (set_connectionState st s)).
  apply Forall_fmap, Forall_forall. by intros l _.
Qed.




Lemma trace_updateState st s : trace s `prefix_of` trace (updateState st s).
Proof.
  unfold updateState. case_decide; [done|]. simpl. by apply prefix_app_r.
Qed.



Section Transport.

Variable sync_close : bool.

Lemma connect_calls_disconnect s :
  connect_calls (disconnect sync_close s) = connect_calls s.
Proof.
  assert (E : ∀ sid, connect_calls (log (FxClose sid) s) = connect_calls s).
  { intros sid. unfold connect_calls. simpl. rewrite filter_app, length_app.
    simpl. lia. }
  unfold disconnect. repeat case_match; try done.
  unfold on_disconnect.
  change (connect_calls (set_roomJoined false ?x)) with (connect_calls x).
  rewrite connect_calls_updateState.
  change (connect_calls (set_sockets _ ?x)) with (connect_calls x). apply E.
Qed.

Lemma disconnect_trace s sid :
  socket s = Some sid →
  (trace s ++ [FxClose sid]) `prefix_of` trace (disconnect sync_close s).
Proof.
  intros Hs. unfold disconnect. rewrite Hs.
  repeat case_match; simpl; try done.
  unfold on_disconnect. simpl.
  etrans; [|apply (trace_updateState DISCONNECTED)]. done.
Qed.


(** ** Identity precondition *)

(** C2, as the code has it.  While the transport is not connected,
    [connect()] rejects with a configuration error when the agent id or
    the room id is unset or when the two differ, and it does nothing else:
    no transport is opened, no timer is set, nothing is left suspended and
    the connection state is as before.  [switchAgent] rejects whenever
    its two arguments differ, and does nothing else either.  While the
    transport is connected, [connect()] resolves with [true] without
    looking at the two ids. *)
Theorem identity_precondition (s : Client) (now : Z) (a r : string) :
  wf s →
  let rc := connect now s in
  let rs := switchAgent sync_close a r now s in
  (socket_connected s = false →
   agentId (config s) = "" ∨ roomId (config s) = ""
   ∨ agentId (config s) ≠ roomId (config s) →
     (promises rc.1 !! (PConnect, rc.2) = Some (Rejected err_ids_unset)
      ∨ promises rc.1 !! (PConnect, rc.2) = Some (Rejected err_ids_differ))
     ∧ trace rc.1 = trace s ++ [FxConnectCall]
     ∧ sockets rc.1 = sockets s ∧ socket rc.1 = socket s
     ∧ timers rc.1 = timers s ∧ awaiting rc.1 = awaiting s
     ∧ connectionState rc.1 = connectionState s)
  ∧ (a ≠ r →
       promises rs.1 !! (PSwitch, rs.2) = Some (Rejected err_switch_differ)
       ∧ trace rs.1 = trace s
       ∧ sockets rs.1 = sockets s ∧ socket rs.1 = socket s
       ∧ timers rs.1 = timers s ∧ awaiting rs.1 = awaiting s
       ∧ config rs.1 = config s ∧ connectionState rs.1 = connectionState s
       ∧ messageQueue rs.1 = messageQueue s ∧ resolvers rs.1 = resolvers s)
  ∧ (socket_connected s = true →
       promises rc.1 !! (PConnect, rc.2) = Some (Resolved VTrue)).
Proof.
  intros Hwf rc rs.
  pose proof (wf_fresh s PConnect (nextId s) Hwf (le_n _)) as Hf.
  pose proof (wf_fresh s PSwitch (nextId s) Hwf (le_n _)) as Hfs.
  split_and!.
  - intros Hc Hbad. unfold rc, connect. cbn [new_id].
    change (socket_connected (set_nextId _ (log _ s))) with (socket_connected s).
    rewrite Hc. simpl. unfold truthy.
    destruct (decide (agentId (config s) = "")) as [Ea|Ea].
    { rewrite (bool_decide_eq_false_2 (agentId (config s) ≠ "")) by tauto. simpl.
      unfold settle. simpl. rewrite Hf. simpl. rewrite lookup_insert_eq.
      split_and!; try done. by left. }
    rewrite (bool_decide_eq_true_2 (agentId (config s) ≠ "")) by done. simpl.
    destruct (decide (roomId (config s) = "")) as [Er|Er].
    { rewrite (bool_decide_eq_false_2 (roomId (config s) ≠ "")) by tauto. simpl.
      unfold settle. simpl. rewrite Hf. simpl. rewrite lookup_insert_eq.
      split_and!; try done. by left. }
    rewrite (bool_decide_eq_true_2 (roomId (config s) ≠ "")) by done. simpl.
    destruct Hbad as [?|[?|Hd]]; [done..|].
    rewrite (bool_decide_eq_true_2 _ Hd).
    unfold settle. simpl. rewrite Hf. simpl. rewrite lookup_insert_eq.
    split_and!; try done. by right.
  - intros Hd. unfold rs, switchAgent. cbn [new_id].
    rewrite (bool_decide_eq_true_2 _ Hd). unfold settle. simpl. rewrite Hfs.
    simpl. rewrite lookup_insert_eq. by split_and!.
  - intros Hc. unfold rc. rewrite connect_connected by done. simpl.
    unfold settle. simpl. rewrite Hf. simpl. by rewrite lookup_insert_eq.
Qed.

(** ** Reconfiguration reset *)

Lemma switchAgent_reset_ok t s : reset_for t (switchAgent_reset t t s).
Proof. by unfold reset_for, switchAgent_reset. Qed.

(** C7 (reconfiguration reset).  A [switchAgent(t, t)] enters [connect()]
    from a state in which the queue and the waiter set are empty, the
    membership flag is false and the configured agent and room are both
    [t]: at once when the transport is not connected, and otherwise when
    the grace delay has passed that is set once the transport was closed
    through [disconnect()], whatever happened to the client in between.
    Until then no [connect()] is entered. *)
Theorem switch_resets_before_connect (t : string) (now : Z) (s : Client) :
  let r := switchAgent sync_close t t now s in
  (socket_connected s = false →
     ∃ mid, reset_for t mid ∧ r.1 = switchAgent_connect r.2 now mid)
  ∧ (socket_connected s = true →
       (∀ sid, socket s = Some sid →
          (trace s ++ [FxClose sid]) `prefix_of` trace r.1)
       ∧ connect_calls r.1 = connect_calls s
       ∧ timers r.1 !! S r.2 = Some (GraceDelay t t r.2))
  ∧ (∀ (later : Client) (tm o : nat) (now' : Z),
       timers later !! tm = Some (GraceDelay t t o) →
       ∃ mid, reset_for t mid
              ∧ step sync_close (TimerFires tm now') later
                = switchAgent_connect o now' mid).
Proof.
  intros r. unfold r, switchAgent. cbn [new_id].
  rewrite (bool_decide_eq_false_2 (t ≠ t)) by (by intros []).
  change (socket_connected (set_nextId _ s)) with (socket_connected s).
  split_and!.
  - intros ->. cbn [fst snd]. eexists. split; [apply switchAgent_reset_ok|done].
  - intros ->. cbn [fst snd].
    destruct (disconnect_frame sync_close (set_nextId (S (nextId s)) s))
      as (Hn & _).
    simpl in Hn. unfold setTimeout. simpl. rewrite Hn, lookup_insert_eq.
    split_and!; [|  |done].
    + intros sid Hsid.
      by apply (disconnect_trace (set_nextId (S (nextId s)) s)).
    + change (connect_calls (set_timers _ (set_nextId _ ?x)))
        with (connect_calls x).
      by rewrite connect_calls_disconnect.
  - intros later tm o now' Ht. simpl. unfold timer_fires. rewrite Ht.
    eexists. split; [apply switchAgent_reset_ok|done].
Qed.

(** ** [setConfig] *)


End Transport.

(** Proves a decidable fact about a concrete session by evaluation. *)
Ltac by_evaluation :=
  lazymatch goal with
  | |- wf ?s => apply (bool_decide_unpack (wf s)); vm_compute; exact I
  | |- _ => vm_compute; first [reflexivity | exact I | by repeat constructor]
  end.

(** ** The claims at work on the sample sessions *)

Lemma fifo_correlation_witness :
  wf fresh_session
  ∧ messageQueue fresh_session = []
  ∧ resolvers fresh_session = []
  ∧ waiters_of sample_schedule fresh_session !! 2 = Some 3
  ∧ replies_of sample_schedule fresh_session !! 2
    = Some (text_from "agent-1" "three")
  ∧ promises (run_ops sample_schedule fresh_session) !! (PWait, 3)
    = (λ m, Resolved (VMessage m))
        <$> (replies_of sample_schedule fresh_session !! 2).
Proof.
  assert (W : wf fresh_session) by by_evaluation.
  assert (I2 : waiters_of sample_schedule fresh_session !! 2 = Some 3)
    by by_evaluation.
  split_and!; [exact W|reflexivity|reflexivity|exact I2|by_evaluation|].
  exact (fifo_correlation sample_schedule fresh_session W eq_refl eq_refl 2 3 I2).
Defined.

Lemma connect_idempotent_witness :
  wf connected_session
  ∧ socket_connected connected_session = true
  ∧ promises (connect 2000 (connect 1500 connected_session).1).1
      !! (PConnect, (connect 2000 (connect 1500 connected_session).1).2)
    = Some (Resolved VTrue)
  ∧ opens (connect 2000 (connect 1500 connected_session).1).1
    = opens connected_session
  ∧ emits (connect 2000 (connect 1500 connected_session).1).1
    = emits connected_session.
Proof.
  assert (W : wf connected_session) by by_evaluation.
  assert (Hc : socket_connected connected_session = true) by by_evaluation.
  pose proof (connect_idempotent 1500 2000 connected_session W Hc)
    as (_ & H2 & _ & H4 & H5 & _).
  by split_and!.
Defined.

Lemma identity_precondition_witness :
  wf misconfigured_session
  ∧ socket_connected misconfigured_session = false
  ∧ (promises (connect 1000 misconfigured_session).1
       !! (PConnect, (connect 1000 misconfigured_session).2)
     = Some (Rejected err_ids_unset)
     ∨ promises (connect 1000 misconfigured_session).1
         !! (PConnect, (connect 1000 misconfigured_session).2)
       = Some (Rejected err_ids_differ))
  ∧ trace (connect 1000 misconfigured_session).1
    = trace misconfigured_session ++ [FxConnectCall]
  ∧ promises (switchAgent true "agent-1" "room-2" 1000 misconfigured_session).1
      !! (PSwitch,
          (switchAgent true "agent-1" "room-2" 1000 misconfigured_session).2)
    = Some (Rejected err_switch_differ)
  ∧ trace (switchAgent true "agent-1" "room-2" 1000 misconfigured_session).1
    = trace misconfigured_session.
Proof.
  assert (W : wf misconfigured_session) by by_evaluation.
  assert (Hc : socket_connected misconfigured_session = false) by by_evaluation.
  assert (Hd : "agent-1" ≠ "room-2") by done.
  pose proof (identity_precondition true misconfigured_session 1000
                "agent-1" "room-2" W) as (H1 & H2 & _).
  destruct (H1 Hc (or_intror (or_intror Hd))) as (Hr & Ht & _).
  destruct (H2 Hd) as (Hs & Hts & _).
  by split_and!.
Defined.

Lemma connect_accepts_mismatch :
  agentId (config (drifted_session true)) = "agent-1"
  ∧ roomId (config (drifted_session true)) = "room-2"
  ∧ promises (connect 9500 (drifted_session true)).1
      !! (PConnect, (connect 9500 (drifted_session true)).2)
    = Some (Resolved VTrue)
  ∧ agentId (config (drifted_session false)) = "agent-1"
  ∧ roomId (config (drifted_session false)) = "room-2"
  ∧ promises (connect 9500 (drifted_session false)).1
      !! (PConnect, (connect 9500 (drifted_session false)).2)
    = Some (Resolved VTrue).
Proof. by_evaluation. Qed.

Lemma timeout_surfacing_witness :
  timers asking_session !! 3 = Some (ResponseTimeout 2 "mcp-msg-1")
  ∧ promises asking_session !! (PSendAndGet, 2) = None
  ∧ (∃ m, promises (step true (TimerFires 3 95000) asking_session)
            !! (PSendAndGet, 2) = Some (Resolved (VMessage m))
          ∧ msg_error m
            = Some "Response timeout after 90000ms for message ID mcp-msg-1"
          ∧ msg_status m = Some "error"
          ∧ msg_text m = None)
  ∧ timers waiting_session !! 3 = Some (WaitTimeout 2 90000)
  ∧ in_waiter_set FromWait 2 waiting_session
  ∧ promises waiting_session !! (PWait, 2) = None
  ∧ promises (step true (TimerFires 3 95000) waiting_session) !! (PWait, 2)
    = Some (Rejected
              "Timeout waiting for a VALID TEXTUAL response from agent agent-1 after 90000ms").
Proof.
  destruct (timeout_surfacing true) as (H1 & H2 & _).
  assert (T1 : timers asking_session !! 3 = Some (ResponseTimeout 2 "mcp-msg-1"))
    by by_evaluation.
  assert (P1 : promises asking_session !! (PSendAndGet, 2) = None)
    by by_evaluation.
  assert (T2 : timers waiting_session !! 3 = Some (WaitTimeout 2 90000))
    by by_evaluation.
  assert (P2 : promises waiting_session !! (PWait, 2) = None) by by_evaluation.
  assert (I2 : in_waiter_set FromWait 2 waiting_session).
  { apply Exists_exists. exists waiting_resolver. split; [|reflexivity].
    vm_compute. by left. }
  split_and!; [exact T1|exact P1| |exact T2|exact I2|exact P2|].
  - destruct (H1 asking_session 3 95000%Z 2 "mcp-msg-1" T1 P1)
      as (m & Hm & _ & He & Hs & Ht & _).
    exists m. split_and!; [exact Hm|exact He|exact Hs|exact Ht].
  - exact (H2 waiting_session 3 95000%Z 2 90000%N T2 I2 P2).
Defined.

Lemma timeout_cleanup_witness :
  wf waiting_session
  ∧ timers waiting_session !! 3 = Some (WaitTimeout 2 90000)
  ∧ waiting_resolver ∈ resolvers waiting_session
  ∧ ¬ in_waiter_set FromWait 2
        (notifyMessageListeners (text_from "agent-1" "late")
           (run true [CallWaitForNextMessage None]
              (step true (TimerFires 3 95000) waiting_session)))
  ∧ timers
      (run true [CallConnect 3000]
         (notifyMessageListeners (text_from "agent-1" "in time") waiting_session))
      !! res_timer waiting_resolver
    = None.
Proof.
  destruct (timeout_cleanup true) as (H1 & H2).
  assert (W : wf waiting_session) by by_evaluation.
  assert (T : timers waiting_session !! 3 = Some (WaitTimeout 2 90000))
    by by_evaluation.
  assert (R : waiting_resolver ∈ resolvers waiting_session)
    by (vm_compute; by left).
  split_and!; [exact W|exact T|exact R| |].
  - exact (proj1 (proj2 (proj2
      (H1 waiting_session 3 95000%Z (WaitTimeout 2 90000) FromWait 2
          [CallWaitForNextMessage None] (text_from "agent-1" "late") W T
          (conj eq_refl eq_refl))))).
  - refine (proj1 (proj2 (proj2
      (H2 waiting_session (text_from "agent-1" "in time") waiting_resolver
          [CallConnect 3000] 95000%Z W R _)))).
    vm_compute. intros Hin. by apply elem_of_nil in Hin.
Defined.

Lemma switch_resets_before_connect_witness :
  let r := switchAgent true "agent-2" "agent-2" 3000 busy_session in
  let later :=
    run true [CallWaitForNextMessage None; CallWaitForNextMessage None] r.1 in
  let r' := switchAgent true "agent-3" "agent-3" 7000 dropped_session in
  socket_connected busy_session = true
  ∧ messageQueue busy_session = [early_reply]
  ∧ length (resolvers busy_session) = 1
  ∧ roomJoined busy_session = true
  ∧ agentId (config busy_session) = "agent-1"
  ∧ (trace busy_session ++ [FxClose 0]) `prefix_of` trace r.1
  ∧ connect_calls r.1 = connect_calls busy_session
  ∧ timers r.1 !! S r.2 = Some (GraceDelay "agent-2" "agent-2" r.2)
  ∧ length (resolvers later) = 2
  ∧ timers later !! 5 = Some (GraceDelay "agent-2" "agent-2" 4)
  ∧ (∃ mid, reset_for "agent-2" mid
            ∧ step true (TimerFires 5 3250) later
              = switchAgent_connect 4 3250 mid)
  ∧ socket_connected dropped_session = false
  ∧ messageQueue dropped_session = [early_reply]
  ∧ length (resolvers dropped_session) = 1
  ∧ (∃ mid, reset_for "agent-3" mid
            ∧ r'.1 = switchAgent_connect r'.2 7000 mid).
Proof.
  intros r later r'.
  destruct (switch_resets_before_connect true "agent-2" 3000 busy_session)
    as (_ & H2 & H3).
  destruct (switch_resets_before_connect true "agent-3" 7000 dropped_session)
    as (H1 & _).
  assert (Hc : socket_connected busy_session = true) by by_evaluation.
  assert (Hd : socket_connected dropped_session = false) by by_evaluation.
  assert (Hs : socket busy_session = Some 0) by by_evaluation.
  assert (Ht : timers later !! 5 = Some (GraceDelay "agent-2" "agent-2" 4))
    by by_evaluation.
  destruct (H2 Hc) as (P & C & T).
  split_and!.
  - exact Hc.
  - by_evaluation.
  - by_evaluation.
  - by_evaluation.
  - by_evaluation.
  - exact (P 0 Hs).
  - exact C.
  - exact T.
  - by_evaluation.
  - exact Ht.
  - exact (H3 later 5 4 3250%Z Ht).
  - exact Hd.
  - by_evaluation.
  - by_evaluation.
  - exact (H1 Hd).
Defined.


Lemma connect_error_is_inert_witness :
  sockets connecting_session !! 0
  = Some {| sock_connected := false; sock_promise := 0; sock_timer := 1 |}
  ∧ promises connecting_session !! (PConnect, 0) = None
  ∧ step true (FromSocket 0 OnConnectError) connecting_session
    = connecting_session.
Proof.
  split_and!; [by_evaluation..|].
  exact (proj1 (connect_error_is_inert true) 0 connecting_session).
Defined.


(** ** Where the code departs from the claims *)

(** C4.  A [waitForNextMessage] call is pending, with its closure in the
    waiter set and its timer armed.  Left alone, the timer rejects the
    call with the timeout error.  After a [switchAgent], whose line 516
    empties the waiter set and clears no timer, the timer finds
    [indexOf(resolverWrapper) = -1] and takes the branch that only logs:
    the call is not rejected, it has neither closure nor timer left, and a
    valid reply of the new agent is queued without resolving it either.
    The call stays pending for good. *)
Theorem waitForNext_timeout_lost_after_switchAgent :
  let switched :=
    run true [CallSwitchAgent "agent-2" "agent-2" 3000; TimerFires 5 3250]
      waiting_session in
  let fired := step true (TimerFires 3 95000) switched in
  let replied :=
    run true [FromSocket 1 (OnConnect 96000);
              FromSocket 1 (OnMessageBroadcast (text_from "agent-2" "hello"))]
      fired in
  let switched' :=
    run false [CallSwitchAgent "agent-2" "agent-2" 3000; TimerFires 5 3250]
      waiting_session in
  let fired' := step false (TimerFires 3 95000) switched' in
  promises waiting_session !! (PWait, 2) = None
  ∧ resolvers waiting_session = [waiting_resolver]
  ∧ timers waiting_session !! 3 = Some (WaitTimeout 2 90000)
  ∧ promises (step true (TimerFires 3 95000) waiting_session) !! (PWait, 2)
    = Some (Rejected "Timeout waiting for a VALID TEXTUAL response from agent agent-1 after 90000ms")
  ∧ resolvers switched = []
  ∧ timers switched !! 3 = Some (WaitTimeout 2 90000)
  ∧ promises fired !! (PWait, 2) = None
  ∧ resolvers fired = []
  ∧ timers fired !! 3 = None
  ∧ messageQueue replied = [text_from "agent-2" "hello"]
  ∧ promises replied !! (PWait, 2) = None
  ∧ resolvers switched' = []
  ∧ timers switched' !! 3 = Some (WaitTimeout 2 90000)
  ∧ promises fired' !! (PWait, 2) = None
  ∧ timers fired' !! 3 = None.
Proof. by_evaluation. Qed.

(** C8.  [setConfig] with a change of agent and room, all five identity
    fields populated.  While a connect attempt is in flight (state
    [CONNECTING]) the in-flight transport is closed, which raises no
    ['disconnect'] event, and the guard of line 568 then skips
    [connect()]: no connect is attempted and the state stays [CONNECTING],
    never [DISCONNECTED].  After a connection timeout (state [ERROR], the
    transport not connected) [connect()] is entered, but the observer is
    told [CONNECTING] straight after the close: the state was never
    [DISCONNECTED] in between.  Neither run depends on when the transport
    reports a close, since no transport was connected. *)
Theorem setConfig_critical_change_misses_reconnect :
  let p := retarget "agent-2" in
  let r := setConfig true p 3000 connecting_observed in
  let r' := setConfig true p 130000 timed_out_session in
  connectionState connecting_observed = CONNECTING
  ∧ criticalChange (config connecting_observed)
      (merge_config (config connecting_observed) p) = true
  ∧ identity_populated (merge_config (config connecting_observed) p) = true
  ∧ trace r.1 = trace connecting_observed ++ [FxClose 0]
  ∧ connect_calls r.1 = connect_calls connecting_observed
  ∧ connectionState r.1 = CONNECTING
  ∧ promises r.1 !! (PSetConfig, r.2) = Some (Resolved VVoid)
  ∧ setConfig false p 3000 connecting_observed = r
  ∧ connectionState timed_out_session = ERROR
  ∧ criticalChange (config timed_out_session)
      (merge_config (config timed_out_session) p) = true
  ∧ identity_populated (merge_config (config timed_out_session) p) = true
  ∧ trace r'.1
    = trace timed_out_session
      ++ [FxClose 0; FxConnectCall; FxState 7 CONNECTING;
          FxOpen 1 "http://localhost:3000" "agent-2" "user-1" 120000]
  ∧ connect_calls r'.1 = S (connect_calls timed_out_session)
  ∧ connectionState r'.1 = CONNECTING
  ∧ setConfig false p 130000 timed_out_session = r'.
Proof. by_evaluation. Qed.
